(** * dcos app: version resolution and descriptor construction

    A shallow embedding of [dcos/cli/app/main.py].  Python values keep the
    shape they have in the source: integers are [Z], strings are byte
    strings, a [(value, error)] pair with [None] sentinels is a pair of
    options, a [dict] with string keys is a [gmap string _].  Effects
    (publishing, logging, calls on the Marathon client) are recorded in a
    trace that every command threads through; an exception is an outcome
    of its own, so that "no exception escapes" is a statement about the
    model and not an assumption of it. *)

From Stdlib Require Import ZArith Ascii Numbers.DecimalString Floats.SpecFloat.
From stdpp Require Import base option list strings gmap.

#[local] Set Warnings "-register-all".
Local Open Scope Z_scope.

(** ** Python primitives *)

Module Py.

Inductive exc : Type := ValueError | TypeError | KeyError | IndexError.

(** What evaluating a Python expression ends in. *)
Inductive outcome (A : Type) : Type :=
| Returned (a : A)
| Raised (e : exc).
Arguments Returned {A} a.
Arguments Raised {A} e.

Definition squote : ascii := "'"%char.
Definition dquote : ascii := "034"%char.
Definition backslash : ascii := "\"%char.

(** The white space [int] strips from ASCII text: 0x09-0x0d and the
    space. *)
Definition is_space (c : ascii) : bool :=
  let n := nat_of_ascii c in
  ((9 <=? n)%nat && (n <=? 13)%nat) || (n =? 32)%nat.

Fixpoint lstrip (s : string) : string :=
  match s with
  | String c s' => if is_space c then lstrip s' else s
  | EmptyString => EmptyString
  end.

Fixpoint rstrip (s : string) : string :=
  match s with
  | String c s' =>
      match rstrip s' with
      | EmptyString => if is_space c then EmptyString else String c EmptyString
      | r => String c r
      end
  | EmptyString => EmptyString
  end.

Definition strip (s : string) : string := rstrip (lstrip s).

Definition digit_value (c : ascii) : option Z :=
  let n := nat_of_ascii c in
  if ((48 <=? n)%nat && (n <=? 57)%nat)%bool
  then Some (Z.of_nat n - 48) else None.

(** The digits that follow a first digit; a single underscore may sit
    between two digits (the literal grammar [int] accepts). *)
Fixpoint parse_digits (acc : Z) (s : string) : option Z :=
  match s with
  | EmptyString => Some acc
  | String c rest =>
      match digit_value c with
      | Some d => parse_digits (10 * acc + d) rest
      | None =>
          if Ascii.eqb c "_"%char then
            match rest with
            | String c' rest' =>
                match digit_value c' with
                | Some d => parse_digits (10 * acc + d) rest'
                | None => None
                end
            | EmptyString => None
            end
          else None
      end
  end.

Definition parse_unsigned (s : string) : option Z :=
  match s with
  | String c rest =>
      match digit_value c with
      | Some d => parse_digits d rest
      | None => None
      end
  | EmptyString => None
  end.

Fixpoint count_digits (s : string) : Z :=
  match s with
  | String c rest =>
      match digit_value c with
      | Some _ => 1 + count_digits rest
      | None => count_digits rest
      end
  | EmptyString => 0
  end.

(** The most digits [int] converts (the interpreter's default limit on
    integer string conversion). *)
Definition max_str_digits : Z := 4300.

(** [int(string)] for a [str] of ASCII text, base 10: surrounding white
    space is dropped, one sign is allowed, the rest must be decimal
    digits, at most [max_str_digits] of them.  Anything else raises
    [ValueError].  Python integers are unbounded. *)
Definition int (s : string) : outcome Z :=
  let t := strip s in
  let '(neg, body) :=
    match t with
    | String c r =>
        if Ascii.eqb c "-"%char then (true, r)
        else if Ascii.eqb c "+"%char then (false, r)
        else (false, t)
    | EmptyString => (false, t)
    end in
  match parse_unsigned body with
  | Some v =>
      if max_str_digits <? count_digits body then Raised ValueError
      else Returned (if neg then - v else v)
  | None => Raised ValueError
  end.

(** [len(l)] *)
Definition len {A} (l : list A) : Z := Z.of_nat (length l).

(** [l[i]]: a negative index counts from the end, an index outside the
    list raises [IndexError]. *)
Definition index {A} (l : list A) (i : Z) : outcome A :=
  let j := if i <? 0 then i + len l else i in
  if (j <? 0) || (len l <=? j) then Raised IndexError
  else match l !! Z.to_nat j with
       | Some x => Returned x
       | None => Raised IndexError
       end.

(** [repr] of an [int]. *)
Definition repr_int (z : Z) : string := NilZero.string_of_int (Z.to_int z).

Definition hex_digit (n : nat) : ascii :=
  if (n <? 10)%nat then ascii_of_nat (48 + n) else ascii_of_nat (87 + n).

Fixpoint contains (c : ascii) (s : string) : bool :=
  match s with
  | String c' s' => Ascii.eqb c c' || contains c s'
  | EmptyString => false
  end.

(** One character of [repr] of a [str], for the quote [q] in use.
    Bytes from 0x80 on (UTF-8 of printable text) are kept. *)
Definition repr_char (q c : ascii) : string :=
  let n := nat_of_ascii c in
  if Ascii.eqb c q || Ascii.eqb c backslash then String backslash (String c "")
  else if Ascii.eqb c "009"%char then "\t"
  else if Ascii.eqb c "010"%char then "\n"
  else if Ascii.eqb c "013"%char then "\r"
  else if (n <? 32)%nat || (n =? 127)%nat then
    String backslash (String "x" (String (hex_digit (n / 16)) (String (hex_digit (n mod 16)) "")))
  else String c "".

Fixpoint repr_chars (q : ascii) (s : string) : string :=
  match s with
  | String c s' => repr_char q c +:+ repr_chars q s'
  | EmptyString => String q ""
  end.

(** [repr] of a [str]: single quotes, unless the text has a single quote
    and no double quote. *)
Definition repr_str (s : string) : string :=
  let q := if contains squote s && negb (contains dquote s)
           then dquote else squote in
  String q (repr_chars q s).

(** [repr] of an exception class, as [sys.exc_info()[0]] gives it. *)
Definition exc_name (e : exc) : string :=
  match e with
  | ValueError => "ValueError"
  | TypeError => "TypeError"
  | KeyError => "KeyError"
  | IndexError => "IndexError"
  end.

Definition repr_exc_class (e : exc) : string :=
  "<class '" +:+ exc_name e +:+ "'>".

End Py.

Import Py.

(** ** Data model *)

(** [errors.DefaultError(message)]: an error is its message. *)
Inductive Error : Type := DefaultError (msg : string).

(** A decoded JSON value; a Python [float] is an IEEE 754 binary64. *)
Inductive Json : Type :=
| JNull
| JBool (b : bool)
| JInt (z : Z)
| JFloat (x : spec_float)
| JStr (s : string)
| JArray (xs : list Json)
| JObject (d : gmap string Json).

(** The Marathon client ([dcos.api.marathon.Client]) as the answers it
    gives.  Each method returns a [(value, error)] pair of which exactly
    one side is [None]; [remove_app] returns the error alone. *)
Record Client : Type := {
  get_app : string → option string → gmap string Json + Error;
  get_apps : list (gmap string Json) + Error;
  get_app_versions : string → Z → list string + Error;
  add_app : Json → unit + Error;
  update_app : string → Json → bool → string + Error;
  remove_app : string → bool → option Error
}.

(** What [emitter.publish] is given. *)
Inductive emitted : Type :=
| EmitText (s : string)
| EmitError (e : Error)
| EmitJson (j : Json).

(** The observable steps of a command, in the order they happen. *)
Inductive event : Type :=
| Publish (x : emitted)
| LogError (msg : string)
| LogInfo (msg : string)
| CallGetApp (app_id : string) (version : option string)
| CallGetApps
| CallGetAppVersions (app_id : string) (count : Z)
| CallAddApp (resource : Json)
| CallUpdateApp (app_id : string) (resource : Json) (force : bool)
| CallRemoveApp (app_id : string) (force : bool).

(** ** The effect monad: a trace of events, and exceptions *)

Definition M (A : Type) : Type := list event → outcome A * list event.

#[global] Instance M_ret : MRet M := λ A a tr, (Returned a, tr).

#[global] Instance M_bind : MBind M := λ A B f m tr,
  match m tr with
  | (Returned a, tr') => f a tr'
  | (Raised e, tr') => (Raised e, tr')
  end.

Definition emit (ev : event) : M unit := λ tr, (Returned (), tr ++ [ev]).

Definition raise {A} (e : exc) : M A := λ tr, (Raised e, tr).

Definition lift {A} (o : outcome A) : M A := λ tr, (o, tr).

(** [try: body  except: handler]; the bare [except] catches everything. *)
Definition try_except {A} (body : M A) (handler : exc → M A) : M A := λ tr,
  match body tr with
  | (Returned a, tr') => (Returned a, tr')
  | (Raised e, tr') => handler e tr'
  end.

(** A call on the client: recorded, then answered. *)
Definition call {A} (ev : event) (answer : A) : M A :=
  _ ← emit ev; mret answer.

(** The [(value, error)] pair a client method hands back. *)
Definition pair_of {A} (r : A + Error) : option A * option Error :=
  match r with
  | inl a => (Some a, None)
  | inr e => (None, Some e)
  end.

(** ** [_parse_int] *)

Definition _parse_int (string : string) : M (option Z * option Error) :=
  try_except
    (v ← lift (Py.int string); mret (Some v, None))
    (λ error,
      _ ← emit (LogError ("Unhandled exception while parsing string as int: "
                          +:+ repr_str string +:+ " -- " +:+ repr_exc_class error));
      mret (None, Some (DefaultError "Error parsing string as int"))).

(** ** [_calculate_version] *)

Definition _calculate_version (client : Client) (app_id version : string)
  : M (option string * option Error) :=
  '(value, err) ← _parse_int version;
  match err, value with
  | None, Some value =>
      if value <? 0 then
        let value := -1 * value in
        '(versions, err) ← call (CallGetAppVersions app_id (value + 1))
                                (pair_of (get_app_versions client app_id (value + 1)));
        match err, versions with
        | Some err, _ => mret (None, Some err)
        | None, Some versions =>
            if len versions <=? value then
              let msg := "Application " +:+ repr_str app_id +:+ " only has "
                         +:+ repr_int (len versions) +:+ " version(s)." in
              mret (None, Some (DefaultError msg))
            else
              v ← lift (Py.index versions value); mret (Some v, None)
        | None, None => raise TypeError
        end
      else
        mret (None, Some (DefaultError ("Relative versions must be negative: " +:+ version)))
  | None, None => raise TypeError
  | Some _, _ => mret (Some version, None)
  end.

(** ** Values read from a decoded application resource *)

(** [d[k]] on a [dict]. *)
Definition getitem (d : gmap string Json) (k : string) : outcome Json :=
  match d !! k with
  | Some v => Returned v
  | None => Raised KeyError
  end.

(** [x > 0] and [x <= 0] for a decoded JSON value [x]: numbers compare
    ([bool] is a number), anything else raises [TypeError]. *)
Definition json_gt_zero (j : Json) : outcome bool :=
  match j with
  | JInt z => Returned (0 <? z)
  | JBool b => Returned b
  | JFloat x => Returned (SFltb (S754_zero false) x)
  | _ => Raised TypeError
  end.

Definition json_le_zero (j : Json) : outcome bool :=
  match j with
  | JInt z => Returned (z <=? 0)
  | JBool b => Returned (negb b)
  | JFloat x => Returned (SFleb x (S754_zero false))
  | _ => Raised TypeError
  end.

(** ** The commands *)

Section Commands.

(** The collaborators of [main.py] that live in [dcos.api] and in the
    process environment.  [Schema] is whatever [json.loads] makes of
    [data/marathon-schema.json]: [main.py] only passes it on. *)
Context {Schema : Type}.
Variable client : Client.
Variable schema : Schema.
Variable stdin_isatty : bool.
Variable stdin_read : string.
Variable configure_logger_from_environ : option Error.
Variable load_jsons : string → Json + Error.
Variable validate_json : Json → Schema → option Error.
Variable parse_json_item : string → Schema → (string * Json) + Error.
Variable repr_other : Json → string.
Variable usage_error : emitted.

(** [repr] of a decoded JSON value; floats and containers are left to
    [repr_other]. *)
Definition repr_json (j : Json) : string :=
  match j with
  | JNull => "None"
  | JBool true => "True"
  | JBool false => "False"
  | JInt z => repr_int z
  | JStr s => repr_str s
  | _ => repr_other j
  end.

Definition publish (x : emitted) : M unit := emit (Publish x).

(** A process status; [None] is Python's [None], what a function that
    falls off its end returns. *)
Definition status : Type := option Z.

Definition tty_message (example : string) : string :=
  "We currently don't support reading from the TTY. Please specify "
  +:+ "an application JSON." +:+ String "010" ("E.g. dcos app " +:+ example).

Definition _info : M status :=
  _ ← publish (EmitText "Deploy and manage applications on Apache Mesos");
  mret (Some 0).

Definition _add : M status :=
  if stdin_isatty then
    _ ← publish (EmitText (tty_message "add < app_resource.json"));
    mret (Some 1)
  else
    match pair_of (load_jsons stdin_read) with
    | (_, Some err) => _ ← publish (EmitError err); mret (Some 1)
    | (application_resource, None) =>
        let application_resource := default JNull application_resource in
        '(_, err) ← call (CallAddApp application_resource)
                         (pair_of (add_app client application_resource));
        match err with
        | Some err => _ ← publish (EmitError err); mret (Some 1)
        | None => mret (Some 0)
        end
    end.

Fixpoint publish_ids (apps : list (gmap string Json)) : M unit :=
  match apps with
  | [] => mret ()
  | app :: apps' =>
      id ← lift (getitem app "id");
      _ ← publish (EmitJson id);
      publish_ids apps'
  end.

Definition _list : M status :=
  '(apps, err) ← call CallGetApps (pair_of (get_apps client));
  match err, apps with
  | Some err, _ => _ ← publish (EmitError err); mret (Some 1)
  | None, None => _ ← publish (EmitText "No applications to list."); raise TypeError
  | None, Some apps =>
      _ ← (if bool_decide (apps = []) then publish (EmitText "No applications to list.")
           else mret ());
      _ ← publish_ids apps;
      mret (Some 0)
  end.

Definition _remove (app_id : string) (force : bool) : M status :=
  err ← call (CallRemoveApp app_id force) (remove_app client app_id force);
  match err with
  | Some err => _ ← publish (EmitError err); mret (Some 1)
  | None => mret (Some 0)
  end.

Definition _show (app_id : string) (version : option string) : M status :=
  resolved ←
    match version with
    | Some version =>
        '(version, err) ← _calculate_version client app_id version;
        match err with
        | Some err => _ ← publish (EmitError err); mret (inr (Some 1))
        | None => mret (inl version)
        end
    | None => mret (inl None)
    end;
  match resolved with
  | inr st => mret st
  | inl version =>
      '(app, err) ← call (CallGetApp app_id version)
                         (pair_of (get_app client app_id version));
      match err, app with
      | Some err, _ => _ ← publish (EmitError err); mret (Some 1)
      | None, Some app => _ ← publish (EmitJson (JObject app)); mret (Some 0)
      | None, None => _ ← publish (EmitJson JNull); mret (Some 0)
      end
  end.

Definition _start (app_id : string) (instances : option string) (force : bool)
  : M status :=
  '(desc, err) ← call (CallGetApp app_id None) (pair_of (get_app client app_id None));
  match err, desc with
  | Some err, _ => _ ← publish (EmitError err); mret (Some 1)
  | None, None => raise TypeError
  | None, Some desc =>
      running ← lift (getitem desc "instances");
      started ← lift (json_gt_zero running);
      if started : bool then
        _ ← publish (EmitText ("Application " +:+ repr_str app_id
                               +:+ " already started: " +:+ repr_json running
                               +:+ " instances."));
        mret (Some 1)
      else
        let app_json : gmap string Json := ∅ in
        let app_json := <["id" := JStr app_id]> app_json in
        counted ←
          match instances with
          | None => mret (inl 1)
          | Some instances =>
              '(instances, err) ← _parse_int instances;
              match err, instances with
              | Some err, _ => _ ← publish (EmitError err); mret (inr (Some 1))
              | None, None => raise TypeError
              | None, Some instances =>
                  if instances <=? 0 then
                    _ ← publish (EmitText ("The number of instances must be positive: "
                                           +:+ repr_int instances +:+ "."));
                    mret (inr (Some 1))
                  else mret (inl instances)
              end
          end;
        match counted with
        | inr st => mret st
        | inl instances =>
            let app_json := <["instances" := JInt instances]> app_json in
            match validate_json (JObject app_json) schema with
            | Some err => _ ← publish (EmitError err); mret (Some 1)
            | None =>
                '(deployment, err) ← call (CallUpdateApp app_id (JObject app_json) force)
                                          (pair_of (update_app client app_id (JObject app_json) force));
                match err, deployment with
                | Some err, _ => _ ← publish (EmitError err); mret (Some 1)
                | None, Some deployment =>
                    _ ← publish (EmitText ("Created deployment " +:+ deployment));
                    mret (Some 0)
                | None, None =>
                    _ ← publish (EmitText "Created deployment None"); mret (Some 0)
                end
            end
        end
  end.

Definition _stop (app_id : string) (force : bool) : M status :=
  '(desc, err) ← call (CallGetApp app_id None) (pair_of (get_app client app_id None));
  match err, desc with
  | Some err, _ => _ ← publish (EmitError err); mret (Some 1)
  | None, None => raise TypeError
  | None, Some desc =>
      running ← lift (getitem desc "instances");
      stopped ← lift (json_le_zero running);
      if stopped : bool then
        _ ← publish (EmitText ("Application " +:+ repr_str app_id
                               +:+ " already stopped: " +:+ repr_json running
                               +:+ " instances."));
        mret (Some 1)
      else
        let app_json : gmap string Json := {["instances" := JInt 0]} in
        '(deployment, err) ← call (CallUpdateApp app_id (JObject app_json) force)
                                  (pair_of (update_app client app_id (JObject app_json) force));
        match err, deployment with
        | Some err, _ => _ ← publish (EmitError err); mret (Some 1)
        | None, Some deployment =>
            _ ← publish (EmitText ("Created deployment " +:+ deployment));
            mret None
        | None, None =>
            _ ← publish (EmitText "Created deployment None"); mret None
        end
  end.

Definition _update_from_stdin (app_id : string) (force : bool) : M status :=
  _ ← emit (LogInfo ("Updating " +:+ repr_str app_id +:+ " from JSON object from stdin"));
  match pair_of (load_jsons stdin_read) with
  | (_, Some err) => _ ← publish (EmitError err); mret (Some 1)
  | (application_resource, None) =>
      let application_resource := default JNull application_resource in
      '(_, err) ← call (CallUpdateApp app_id application_resource force)
                       (pair_of (update_app client app_id application_resource force));
      match err with
      | Some err => _ ← publish (EmitError err); mret (Some 1)
      | None => mret (Some 0)
      end
  end.

(** The [for json_item in json_items] loop of [_update].  It ends either
    with the filled [app_json] or, on its [return 1], with that status. *)
Fixpoint merge_items (json_items : list string) (app_json : gmap string Json)
  : M (gmap string Json + status) :=
  match json_items with
  | [] => mret (inl app_json)
  | json_item :: json_items' =>
      match pair_of (parse_json_item json_item schema) with
      | (_, Some err) => _ ← publish (EmitError err); mret (inr (Some 1))
      | (None, None) => raise TypeError
      | (Some (key, value), None) =>
          if bool_decide (is_Some (app_json !! key)) then
            _ ← publish (EmitText ("Key " +:+ repr_str key
                                   +:+ " was specified more than once"));
            mret (inr (Some 1))
          else
            merge_items json_items' (<[key := value]> app_json)
      end
  end.

Definition _update (app_id : string) (json_items : list string) (force : bool)
  : M status :=
  '(_, err) ← call (CallGetApp app_id None) (pair_of (get_app client app_id None));
  match err with
  | Some err => _ ← publish (EmitError err); mret (Some 1)
  | None =>
      if bool_decide (len json_items = 0) then
        if stdin_isatty then
          _ ← publish (EmitText (tty_message "update < app_update.json"));
          mret (Some 1)
        else _update_from_stdin app_id force
      else
        let app_json : gmap string Json := ∅ in
        let app_json := <["id" := JStr app_id]> app_json in
        merged ← merge_items json_items app_json;
        match merged with
        | inr st => mret st
        | inl app_json =>
            match validate_json (JObject app_json) schema with
            | Some err => _ ← publish (EmitError err); mret (Some 1)
            | None =>
                '(deployment, err) ← call (CallUpdateApp app_id (JObject app_json) force)
                                          (pair_of (update_app client app_id (JObject app_json) force));
                match err, deployment with
                | Some err, _ => _ ← publish (EmitError err); mret (Some 1)
                | None, Some deployment =>
                    _ ← publish (EmitText ("Created deployment " +:+ deployment));
                    mret (Some 0)
                | None, None =>
                    _ ← publish (EmitText "Created deployment None"); mret (Some 0)
                end
            end
        end
  end.

(** What [docopt] makes of the command line. *)
Record Args : Type := {
  arg_app : bool; arg_info : bool; arg_add : bool; arg_list : bool;
  arg_remove : bool; arg_show : bool; arg_start : bool; arg_stop : bool;
  arg_update : bool;
  arg_app_id : string;
  arg_instances : option string;
  arg_properties : list string;
  arg_force : bool;
  arg_app_version : option string
}.

Definition main (args : Args) : M status :=
  match configure_logger_from_environ with
  | Some err => _ ← publish (EmitError err); mret (Some 1)
  | None =>
      if negb (arg_app args) then _ ← publish usage_error; mret (Some 1)
      else if arg_info args then _info
      else if arg_add args then _add
      else if arg_list args then _list
      else if arg_remove args then _remove (arg_app_id args) (arg_force args)
      else if arg_show args then _show (arg_app_id args) (arg_app_version args)
      else if arg_start args then
        _start (arg_app_id args) (arg_instances args) (arg_force args)
      else if arg_stop args then _stop (arg_app_id args) (arg_force args)
      else if arg_update args then
        _update (arg_app_id args) (arg_properties args) (arg_force args)
      else _ ← publish usage_error; mret (Some 1)
  end.

End Commands.

(** ** The property parser of [dcos.api.jsonitem] *)

Module JsonItem.

(** Modelled from the spec: the type tag a schema declares for a field
    (the schema resource [data/marathon-schema.json] is not part of the
    sources at hand). *)
Inductive SchemaFieldType : Type :=
| TString | TNumber | TInteger | TBoolean | TArray | TObject.

(** Modelled from the spec: the error kinds of ValueParser and
    PropertyItemParser. *)
Inductive ParseError : Type :=
| TypeMismatch | SchemaViolation | MalformedProperty | UnknownProperty.

(** Modelled from the spec: the schema accessor, [fieldType] for the
    declared type of a key, [nested] for the shape check of a decoded
    array or object against the field's nested schema, [validate] for the
    whole-document validator. *)
Record SchemaDocument : Type := {
  fieldType : string → option SchemaFieldType;
  nested : string → Json → bool;
  validate : Json → option Error
}.

Section Parser.

(** Decimal-to-binary64 conversion and the JSON decoder are taken as
    given. *)
Variable parse_float : string → option spec_float.
Variable json_loads : string → option Json.

(** Modelled from the spec: ValueParser.parse, the function
    [parse_json_value] of [dcos.api.jsonitem], with [shape] the check
    against the nested schema of the field. *)
Definition parse_value (rawToken : string) (expectedType : SchemaFieldType)
    (shape : Json → bool) : Json + ParseError :=
  match expectedType with
  | TString => inl (JStr rawToken)
  | TInteger =>
      match Py.int rawToken with
      | Returned z => inl (JInt z)
      | Raised _ => inr TypeMismatch
      end
  | TNumber =>
      match parse_float rawToken with
      | Some x => inl (JFloat x)
      | None => inr TypeMismatch
      end
  | TBoolean =>
      if bool_decide (rawToken = "true") then inl (JBool true)
      else if bool_decide (rawToken = "false") then inl (JBool false)
      else inr TypeMismatch
  | TArray | TObject =>
      match json_loads rawToken with
      | Some j => if shape j then inl j else inr SchemaViolation
      | None => inr TypeMismatch
      end
  end.

(** Modelled from the spec: the split of PropertyItemParser, on the first
    [=] of the item. *)
Fixpoint split_item (item : string) : option (string * string) :=
  match item with
  | EmptyString => None
  | String c item' =>
      if Ascii.eqb c "="%char then Some (EmptyString, item')
      else match split_item item' with
           | Some (key, value) => Some (String c key, value)
           | None => None
           end
  end.

(** Modelled from the spec: PropertyItemParser.parse, the function
    [parse_json_item] of [dcos.api.jsonitem]. *)
Definition parse (item : string) (schema : SchemaDocument)
  : (string * Json) + ParseError :=
  match split_item item with
  | None => inr MalformedProperty
  | Some (key, value) =>
      match fieldType schema key with
      | None => inr UnknownProperty
      | Some type =>
          match parse_value value type (nested schema key) with
          | inl v => inl (key, v)
          | inr e => inr e
          end
      end
  end.

Definition describe (e : ParseError) : string :=
  match e with
  | TypeMismatch => "TypeMismatch"
  | SchemaViolation => "SchemaViolation"
  | MalformedProperty => "MalformedProperty"
  | UnknownProperty => "UnknownProperty"
  end.

(** [parse] with the [(value, error)] convention of [main.py]. *)
Definition parse_json_item (item : string) (schema : SchemaDocument)
  : (string * Json) + Error :=
  match parse item schema with
  | inl kv => inl kv
  | inr e => inr (DefaultError (describe e))
  end.

Definition validate_json (j : Json) (schema : SchemaDocument) : option Error :=
  validate schema j.

(** The key an item names, and whether the schema declares it. *)
Definition key_of (item : string) : option string := fst <$> split_item item.

Definition declared (schema : SchemaDocument) (item : string) : Prop :=
  ∃ key, key_of item = Some key ∧ is_Some (fieldType schema key).

End Parser.

End JsonItem.

(** ** Properties of results and traces *)

(** A [(value, error)] pair is well formed when exactly one side is set. *)
Definition exactly_one {A} (r : option A * option Error) : Prop :=
  (∃ a, r = (Some a, None)) ∨ (∃ e, r = (None, Some e)).

(** A status that is a number: 0 or 1. *)
Definition zero_or_one (st : status) : Prop := st = Some 0 ∨ st = Some 1.

(** What a command that does not raise hands back is 0 or 1. *)
Definition exits_zero_or_one (r : outcome status) : Prop :=
  match r with
  | Returned st => zero_or_one st
  | Raised _ => True
  end.

(** The requests that change something on the cluster. *)
Definition is_mutation (ev : event) : bool :=
  match ev with
  | CallAddApp _ | CallUpdateApp _ _ _ | CallRemoveApp _ _ => true
  | _ => false
  end.

Definition is_publish (ev : event) : bool :=
  match ev with Publish _ => true | _ => false end.

Definition is_app_fetch (ev : event) : bool :=
  match ev with CallGetApp _ _ => true | _ => false end.

Definition is_error_report (ev : event) : bool :=
  match ev with Publish (EmitError _) => true | _ => false end.

(** How a status goes with what has been published on the way to it:
    status 1 comes right after something was published, status 0 comes
    with no published error. *)
Definition reported (r : outcome status) (evs : list event) : Prop :=
  match r with
  | Returned (Some 1) => ∃ evs' x, evs = evs' ++ [Publish x]
  | Returned (Some 0) => Forall (λ ev, is_error_report ev = false) evs
  | _ => True
  end.

(** A command only adds to the trace, and its status goes with what it
    added. *)
Definition accounted (m : M status) : Prop :=
  ∀ tr, ∃ evs, (m tr).2 = tr ++ evs ∧ reported (m tr).1 evs.

(** The number of requests in a trace that change the cluster. *)
Definition mutations (evs : list event) : nat :=
  length (List.filter is_mutation evs).

(** A computation that only adds to the trace, with at most [n] requests
    that change the cluster. *)
Definition mutates_at_most {A} (n : nat) (m : M A) : Prop :=
  ∀ tr, ∃ evs, (m tr).2 = tr ++ evs ∧ (mutations evs ≤ n)%nat.



(** A status [_stop] can return: 1, or nothing. *)
Definition one_or_none (r : outcome status) : Prop :=
  match r with
  | Returned st => st = Some 1 ∨ st = None
  | Raised _ => True
  end.

(** ** Fixtures *)

Module Fixture.

Import JsonItem.

Definition history : list string := ["v3"; "v2"; "v1"].

Definition stopped_app : gmap string Json :=
  <["instances" := JInt 0]> (<["id" := JStr "/app"]> ∅).

Definition running_app : gmap string Json :=
  <["instances" := JInt 2]> (<["id" := JStr "/app"]> ∅).

(** A client for an application with three versions. *)
Definition client_of (app : gmap string Json) : Client := {|
  get_app := λ _ _, inl app;
  get_apps := inl [app];
  get_app_versions := λ _ _, inl history;
  add_app := λ _, inl ();
  update_app := λ _ _ _, inl "deployment-1";
  remove_app := λ _ _, None
|}.

Definition fields (key : string) : option SchemaFieldType :=
  if bool_decide (key = "id") then Some TString
  else if bool_decide (key = "cmd") then Some TString
  else if bool_decide (key = "instances") then Some TInteger
  else if bool_decide (key = "cpus") then Some TNumber
  else None.

Definition schema : SchemaDocument := {|
  fieldType := fields;
  nested := λ _ _, true;
  validate := λ _, None
|}.

Definition no_float : string → option spec_float := λ _, None.
Definition no_json : string → option Json := λ _, None.

Definition parse_json_item : string → SchemaDocument → (string * Json) + Error :=
  JsonItem.parse_json_item no_float no_json.

End Fixture.

Module Scenario.

Definition unknown_app : Error := DefaultError "App '/app' does not exist".
Definition locked : Error :=
  DefaultError "App is locked by one or more deployments.".

(** An application resource that lacks [instances]. *)
Definition bare_app : gmap string Json := <["id" := JStr "/app"]> ∅.

(** A cluster that does not know the application. *)
Definition empty_cluster : Client := {|
  get_app := λ _ _, inr unknown_app;
  get_apps := inl [];
  get_app_versions := λ _ _, inr unknown_app;
  add_app := λ _, inl ();
  update_app := λ _ _ _, inr unknown_app;
  remove_app := λ _ _, Some unknown_app
|}.

(** A cluster that has the application and refuses every change. *)
Definition locked_cluster (app : gmap string Json) : Client := {|
  get_app := λ _ _, inl app;
  get_apps := inl [app];
  get_app_versions := λ _ _, inl Fixture.history;
  add_app := λ _, inr locked;
  update_app := λ _ _ _, inr locked;
  remove_app := λ _ _, Some locked
|}.

(** A cluster with several applications, one of them without [id]. *)
Definition cluster_of (apps : list (gmap string Json)) : Client := {|
  get_app := λ _ _, inr unknown_app;
  get_apps := inl apps;
  get_app_versions := λ _ _, inr unknown_app;
  add_app := λ _, inl ();
  update_app := λ _ _ _, inr unknown_app;
  remove_app := λ _ _, Some unknown_app
|}.

Definition invalid : Error := DefaultError "Error validating JSON".

(** A schema that declares the fields of [Fixture.schema] and whose
    validator rejects every document. *)
Definition strict_schema : JsonItem.SchemaDocument := {|
  JsonItem.fieldType := Fixture.fields;
  JsonItem.nested := λ _ _, true;
  JsonItem.validate := λ _, Some invalid
|}.

End Scenario.

Ltac run_command :=
  unfold call, emit, publish, lift, raise, mbind, M_bind, mret, M_ret; simpl.


(** * Facts *)

(** ** Python primitives *)

Example int_minus_one : Py.int "-1" = Returned (-1).
Proof. reflexivity. Qed.

Example int_padded : Py.int "  +042 " = Returned 42.
Proof. reflexivity. Qed.

Example int_underscore : Py.int "1_000" = Returned 1000.
Proof. reflexivity. Qed.

Example int_timestamp : Py.int "2024-01-01T00:00:00Z" = Raised ValueError.
Proof. reflexivity. Qed.

Example int_empty : Py.int "" = Raised ValueError.
Proof. reflexivity. Qed.

Example int_sign_only : Py.int "-" = Raised ValueError.
Proof. reflexivity. Qed.

Example repr_app_id : repr_str "/zero-instance-app" = "'/zero-instance-app'".
Proof. reflexivity. Qed.

Example repr_int_neg : repr_int (-12) = "-12".
Proof. reflexivity. Qed.

(** Indexing inside the list returns the element at that position. *)
Lemma index_in_range {A} (l : list A) (i : Z) :
  0 ≤ i → i < len l →
  ∃ x, l !! Z.to_nat i = Some x ∧ Py.index l i = Returned x.
Proof.
  intros Hlo Hhi. unfold Py.index.
  destruct (Z.ltb_spec i 0) as [?|_]; [lia|].
  destruct (Z.ltb_spec i 0) as [?|_]; [lia|].
  destruct (Z.leb_spec (len l) i) as [?|_]; [lia|]. simpl.
  destruct (lookup_lt_is_Some_2 l (Z.to_nat i)) as [x Hx].
  { unfold len in Hhi. lia. }
  exists x. by rewrite Hx.
Qed.

(** ** [_parse_int] *)

Lemma parse_int_returned s z tr :
  Py.int s = Returned z → _parse_int s tr = (Returned (Some z, None), tr).
Proof. intros H. unfold _parse_int, try_except, lift, mbind, M_bind. by rewrite H. Qed.

Lemma parse_int_raised s e tr :
  Py.int s = Raised e →
  _parse_int s tr =
    (Returned (None, Some (DefaultError "Error parsing string as int")),
     tr ++ [LogError ("Unhandled exception while parsing string as int: "
                      +:+ repr_str s +:+ " -- " +:+ repr_exc_class e)]).
Proof. intros H. unfold _parse_int, try_except, lift, mbind, M_bind. by rewrite H. Qed.

Lemma parse_int_cases s tr :
  (∃ z, Py.int s = Returned z ∧ _parse_int s tr = (Returned (Some z, None), tr))
  ∨ (∃ e, Py.int s = Raised e ∧
          _parse_int s tr =
            (Returned (None, Some (DefaultError "Error parsing string as int")),
             tr ++ [LogError ("Unhandled exception while parsing string as int: "
                              +:+ repr_str s +:+ " -- " +:+ repr_exc_class e)])).
Proof.
  destruct (Py.int s) as [z|e] eqn:H.
  - left. exists z. split; [done|]. by apply parse_int_returned.
  - right. exists e. split; [done|]. by apply parse_int_raised.
Qed.

(** ** [_calculate_version] *)

(** The resolver on a token that parses as [value]. *)
Lemma calculate_version_parsed client app_id version value tr :
  Py.int version = Returned value →
  _calculate_version client app_id version tr =
    if value <? 0 then
      match get_app_versions client app_id (-1 * value + 1) with
      | inr err =>
          (Returned (None, Some err),
           tr ++ [CallGetAppVersions app_id (-1 * value + 1)])
      | inl versions =>
          if len versions <=? -1 * value then
            (Returned (None, Some (DefaultError
               ("Application " +:+ repr_str app_id +:+ " only has "
                +:+ repr_int (len versions) +:+ " version(s)."))),
             tr ++ [CallGetAppVersions app_id (-1 * value + 1)])
          else
            match Py.index versions (-1 * value) with
            | Returned v =>
                (Returned (Some v, None),
                 tr ++ [CallGetAppVersions app_id (-1 * value + 1)])
            | Raised e =>
                (Raised e, tr ++ [CallGetAppVersions app_id (-1 * value + 1)])
            end
      end
    else
      (Returned (None, Some (DefaultError
         ("Relative versions must be negative: " +:+ version))), tr).
Proof.
  intros H. unfold _calculate_version, mbind, M_bind.
  rewrite (parse_int_returned _ _ _ H).
  destruct (value <? 0); [|done].
  unfold call, emit, mbind, M_bind, mret, M_ret, lift.
  destruct (get_app_versions client app_id (-1 * value + 1)) as [versions|err]; simpl; [|done].
  destruct (len versions <=? -1 * value); [done|].
  by destruct (Py.index versions (-1 * value)).
Qed.

(** C1: for a token that parses as the negative integer [-n] (so [n >= 1]),
    [_calculate_version] calls the history lookup once, with count [n + 1];
    when the history it gets is longer than [n], the result is the entry at
    zero-based index [n] of that history. *)
Theorem calculate_version_relative client app_id version n tr :
  1 ≤ n →
  Py.int version = Returned (- n) →
  (_calculate_version client app_id version tr).2
    = tr ++ [CallGetAppVersions app_id (n + 1)]
  ∧ ∀ versions,
      get_app_versions client app_id (n + 1) = inl versions →
      n < len versions →
      ∃ v, versions !! Z.to_nat n = Some v
           ∧ (_calculate_version client app_id version tr).1
               = Returned (Some v, None).
Proof.
  intros Hn Hparse.
  rewrite (calculate_version_parsed _ _ _ _ _ Hparse).
  destruct (Z.ltb_spec (- n) 0) as [_|?]; [|lia].
  replace (-1 * - n) with n by lia.
  split.
  - destruct (get_app_versions client app_id (n + 1)) as [versions|err]; [|done].
    destruct (len versions <=? n); [done|].
    by destruct (Py.index versions n).
  - intros versions Hlookup Hlen. rewrite Hlookup.
    destruct (Z.leb_spec (len versions) n) as [?|_]; [lia|].
    destruct (index_in_range versions n) as (v & Hv & Hidx); [lia|done|].
    exists v. by rewrite Hidx.
Qed.

Lemma calculate_version_relative_witness :
  1 ≤ 1
  ∧ Py.int "-1" = Returned (- 1)
  ∧ _calculate_version (Fixture.client_of Fixture.running_app) "/app" "-1" []
      = (Returned (Some "v2", None), [CallGetAppVersions "/app" 2]).
Proof.
  assert (H1 : 1 ≤ 1) by lia.
  assert (H2 : Py.int "-1" = Returned (- 1)) by reflexivity.
  split; [exact H1|]. split; [exact H2|].
  destruct (calculate_version_relative
              (Fixture.client_of Fixture.running_app) "/app" "-1" 1 [] H1 H2)
    as [Htrace Hresult].
  destruct (Hresult Fixture.history eq_refl) as (v & Hv & Hfst).
  { reflexivity. }
  simpl in Hv. injection Hv as <-.
  rewrite (surjective_pairing (_calculate_version _ _ _ _)).
  rewrite Hfst, Htrace. reflexivity.
Defined.

(** C3: [_calculate_version] on the token [-5] with a history of three
    entries.  The error states how many versions exist; the requested
    offset, although handed to [format] with the other two arguments, is
    not in it: the token [-4] fails with the very same error. *)
Theorem insufficient_history_drops_offset :
  _calculate_version (Fixture.client_of Fixture.running_app) "/app" "-5" []
    = (Returned (None, Some (DefaultError
         "Application '/app' only has 3 version(s).")),
       [CallGetAppVersions "/app" 6])
  ∧ (_calculate_version (Fixture.client_of Fixture.running_app) "/app" "-4" []).1
    = (_calculate_version (Fixture.client_of Fixture.running_app) "/app" "-5" []).1.
Proof. split; reflexivity. Qed.

(** C5: a token that parses as zero or as a positive integer is rejected
    with the "must be negative" error, and the trace is left as it was: the
    history lookup is not called. *)
Theorem calculate_version_not_negative client app_id version value tr :
  Py.int version = Returned value →
  0 ≤ value →
  _calculate_version client app_id version tr
    = (Returned (None, Some (DefaultError
         ("Relative versions must be negative: " +:+ version))), tr).
Proof.
  intros Hparse Hvalue.
  rewrite (calculate_version_parsed _ _ _ _ _ Hparse).
  by destruct (Z.ltb_spec value 0) as [?|_]; [lia|].
Qed.

Lemma calculate_version_not_negative_witness :
  Py.int "0" = Returned 0
  ∧ 0 ≤ 0
  ∧ _calculate_version (Fixture.client_of Fixture.running_app) "/app" "0" []
      = (Returned (None, Some (DefaultError
           "Relative versions must be negative: 0")), []).
Proof.
  assert (H1 : Py.int "0" = Returned 0) by reflexivity.
  assert (H2 : 0 ≤ 0) by lia.
  split; [exact H1|]. split; [exact H2|].
  exact (calculate_version_not_negative
           (Fixture.client_of Fixture.running_app) "/app" "0" 0 [] H1 H2).
Defined.

(** C6: a token that [int] rejects is returned as it is; the only step
    recorded is the log line of [_parse_int], so the history lookup is not
    called and nothing else looks at the token. *)
Theorem calculate_version_absolute client app_id version e tr :
  Py.int version = Raised e →
  _calculate_version client app_id version tr
    = (Returned (Some version, None),
       tr ++ [LogError ("Unhandled exception while parsing string as int: "
                        +:+ repr_str version +:+ " -- " +:+ repr_exc_class e)]).
Proof.
  intros Hparse. unfold _calculate_version, mbind, M_bind.
  by rewrite (parse_int_raised _ _ _ Hparse).
Qed.

Lemma calculate_version_absolute_witness :
  Py.int "2024-01-01T00:00:00Z" = Raised ValueError
  ∧ _calculate_version (Fixture.client_of Fixture.running_app) "/app"
      "2024-01-01T00:00:00Z" []
      = (Returned (Some "2024-01-01T00:00:00Z", None),
         [LogError "Unhandled exception while parsing string as int: '2024-01-01T00:00:00Z' -- <class 'ValueError'>"]).
Proof.
  assert (H1 : Py.int "2024-01-01T00:00:00Z" = Raised ValueError) by reflexivity.
  split; [exact H1|].
  exact (calculate_version_absolute
           (Fixture.client_of Fixture.running_app) "/app"
           "2024-01-01T00:00:00Z" ValueError [] H1).
Defined.

(** The resolver always returns a well-formed pair. *)
Lemma calculate_version_returns client app_id version tr :
  ∃ r tr', _calculate_version client app_id version tr = (Returned r, tr')
           ∧ exactly_one r.
Proof.
  destruct (Py.int version) as [value|e] eqn:Hparse.
  - rewrite (calculate_version_parsed _ _ _ _ _ Hparse).
    destruct (Z.ltb_spec value 0) as [Hneg|_].
    + destruct (get_app_versions client app_id (-1 * value + 1)) as [versions|err].
      * destruct (Z.leb_spec (len versions) (-1 * value)) as [_|Hlen].
        -- eexists _, _. split; [done|]. right. by eexists.
        -- destruct (index_in_range versions (-1 * value)) as (v & _ & Hidx);
             [lia|done|].
           rewrite Hidx. eexists _, _. split; [done|]. left. by eexists.
      * eexists _, _. split; [done|]. right. by eexists.
    + eexists _, _. split; [done|]. right. by eexists.
  - unfold _calculate_version, mbind, M_bind.
    rewrite (parse_int_raised _ _ _ Hparse).
    eexists _, _. split; [done|]. left. by eexists.
Qed.

Section MergeFacts.

Context {Schema : Type}.
Variable schema : Schema.
Variable parse_json_item : string → Schema → (string * Json) + Error.

#[local] Abbreviation merge := (merge_items schema parse_json_item).

Lemma merge_items_cons item items app_json tr :
  merge (item :: items) app_json tr =
    match parse_json_item item schema with
    | inr err => (Returned (inr (Some 1)), tr ++ [Publish (EmitError err)])
    | inl (key, value) =>
        if bool_decide (is_Some (app_json !! key)) then
          (Returned (inr (Some 1)),
           tr ++ [Publish (EmitText ("Key " +:+ repr_str key
                                     +:+ " was specified more than once"))])
        else merge items (<[key := value]> app_json) tr
    end.
Proof.
  simpl. destruct (parse_json_item item schema) as [[key value]|err]; simpl.
  - by destruct (bool_decide (is_Some (app_json !! key))).
  - done.
Qed.

(** The loop never raises: it ends with a descriptor and an untouched
    trace, or with status 1 and one published error. *)
Lemma merge_items_returns items app_json tr :
  (∃ d, merge items app_json tr = (Returned (inl d), tr))
  ∨ (∃ x, merge items app_json tr
            = (Returned (inr (Some 1)), tr ++ [Publish x])).
Proof.
  revert app_json. induction items as [|item items IH]; intros app_json.
  - left. by eexists.
  - rewrite merge_items_cons.
    destruct (parse_json_item item schema) as [[key value]|err].
    + destruct (bool_decide (is_Some (app_json !! key))); [|apply IH].
      right. by eexists.
    + right. by eexists.
Qed.

(** A loop that ends with a descriptor has published nothing, has only
    added keys, and has kept the entries it started from. *)
Lemma merge_items_success items app_json d tr tr' :
  merge items app_json tr = (Returned (inl d), tr') →
  tr' = tr ∧ app_json ⊆ d.
Proof.
  revert app_json. induction items as [|item items IH]; intros app_json.
  - simpl. unfold mret, M_ret. intros [= <- <-]. done.
  - rewrite merge_items_cons.
    destruct (parse_json_item item schema) as [[key value]|err]; [|done].
    destruct (bool_decide_reflect (is_Some (app_json !! key))) as [|Hfresh]; [done|].
    intros Hrun. destruct (IH _ Hrun) as [-> Hsub]. split; [done|].
    etrans; [|exact Hsub]. apply insert_subseteq.
    by apply eq_None_not_Some.
Qed.

(** Items that have been merged do not change what the loop does with
    the next ones. *)
Lemma merge_items_app pre items app_json d tr tr' :
  merge pre app_json tr = (Returned (inl d), tr') →
  merge (pre ++ items) app_json tr = merge items d tr.
Proof.
  revert app_json. induction pre as [|item pre IH]; intros app_json.
  - simpl. unfold mret, M_ret. by intros [= <- <-].
  - rewrite <- app_comm_cons, !merge_items_cons.
    destruct (parse_json_item item schema) as [[key value]|err]; [|done].
    destruct (bool_decide (is_Some (app_json !! key))); [done|]. apply IH.
Qed.

(** The loop only appends to the trace it is given. *)
Lemma merge_items_frame items app_json tr :
  merge items app_json tr
    = ((merge items app_json []).1, tr ++ (merge items app_json []).2).
Proof.
  revert app_json. induction items as [|item items IH]; intros app_json.
  - simpl. unfold mret, M_ret. simpl. by rewrite app_nil_r.
  - rewrite !merge_items_cons.
    destruct (parse_json_item item schema) as [[key value]|err]; [|done].
    destruct (bool_decide (is_Some (app_json !! key))); [done|]. apply IH.
Qed.

(** Items that all parse, to keys that are pairwise distinct and not yet
    in the descriptor, are all merged. *)
Lemma merge_items_fresh items kvs app_json tr :
  Forall2 (λ item kv, parse_json_item item schema = inl kv) items kvs →
  NoDup (kvs.*1) →
  (∀ k, k ∈ kvs.*1 → app_json !! k = None) →
  merge items app_json tr
    = (Returned (inl (list_to_map kvs ∪ app_json)), tr).
Proof.
  intros Hparse. revert app_json.
  induction Hparse as [|item [key value] items kvs Hitem _ IH];
    intros app_json Hnodup Hfresh.
  - simpl. unfold mret, M_ret. by rewrite (left_id_L ∅ (∪)).
  - rewrite merge_items_cons, Hitem.
    simpl in Hnodup. apply NoDup_cons in Hnodup as [Hkey Hnodup].
    assert (app_json !! key = None) as Hnone by (apply Hfresh; simpl; left).
    destruct (bool_decide_reflect (is_Some (app_json !! key))) as [Hsome|_].
    { rewrite Hnone in Hsome. by destruct Hsome. }
    rewrite IH; [|done|].
    + simpl. rewrite <- insert_union_l, <- insert_union_r; [done|].
      by apply not_elem_of_list_to_map_1.
    + intros k Hk. rewrite lookup_insert_ne.
      * apply Hfresh. simpl. by right.
      * intros ->. done.
Qed.

End MergeFacts.

(** ** The descriptor built by [_update] *)

Section BuildFacts.

Context {Schema : Type}.
Variable client : Client.
Variable schema : Schema.
Variable stdin_isatty : bool.
Variable stdin_read : string.
Variable load_jsons : string → Json + Error.
Variable validate_json : Json → Schema → option Error.
Variable parse_json_item : string → Schema → (string * Json) + Error.

#[local] Abbreviation merge := (merge_items schema parse_json_item).
#[local] Abbreviation update :=
  (_update client schema stdin_isatty stdin_read load_jsons validate_json
           parse_json_item).

(** C2, as amended: when every item parses, to keys that are pairwise
    distinct and none of which is [id], the merge loop of [_update] ends
    with a descriptor and publishes nothing; the descriptor has the key
    [id], bound to the application id, plus exactly the keys of the items,
    each bound to its parsed value. *)
Theorem merge_items_distinct app_id items kvs tr :
  Forall2 (λ item kv, parse_json_item item schema = inl kv) items kvs →
  NoDup (kvs.*1) →
  "id" ∉ kvs.*1 →
  ∃ d : gmap string Json,
    merge items (<["id" := JStr app_id]> ∅) tr = (Returned (inl d), tr)
    ∧ dom d = {["id"]} ∪ list_to_set (kvs.*1)
    ∧ d !! "id" = Some (JStr app_id)
    ∧ ∀ k v, (k, v) ∈ kvs → d !! k = Some v.
Proof.
  intros Hparse Hnodup Hid.
  exists (list_to_map kvs ∪ <["id" := JStr app_id]> ∅).
  split; [|split; [|split]].
  - apply merge_items_fresh; [done..|].
    intros k Hk. rewrite lookup_insert_ne; [done|]. by intros <-.
  - rewrite dom_union_L, dom_list_to_map_L, dom_insert_L, dom_empty_L.
    rewrite (right_id_L ∅ (∪)). apply (comm_L (∪)).
  - rewrite lookup_union_r; [by rewrite lookup_insert_eq|].
    by apply not_elem_of_list_to_map_1.
  - intros k v Hkv. apply lookup_union_Some_l.
    by apply elem_of_list_to_map_1.
Qed.

(** C7: when the loop reaches an item whose key is already in the
    descriptor (the items before it having been merged into [d]), it
    publishes the "specified more than once" message for that key and
    returns status 1 in place of a descriptor, whatever items follow;
    [_update] then returns 1 without validating or submitting anything. *)
Theorem update_duplicate_key app_id app pre item rest key value d force tr :
  (merge pre (<["id" := JStr app_id]> ∅) []).1 = Returned (inl d) →
  parse_json_item item schema = inl (key, value) →
  is_Some (d !! key) →
  get_app client app_id None = inl app →
  merge (pre ++ item :: rest) (<["id" := JStr app_id]> ∅) tr
    = (Returned (inr (Some 1)),
       tr ++ [Publish (EmitText ("Key " +:+ repr_str key
                                 +:+ " was specified more than once"))])
  ∧ update app_id (pre ++ item :: rest) force tr
    = (Returned (Some 1),
       tr ++ [CallGetApp app_id None;
              Publish (EmitText ("Key " +:+ repr_str key
                                 +:+ " was specified more than once"))]).
Proof.
  intros Hpre Hitem Hkey Happ.
  assert (∀ tr0, merge (pre ++ item :: rest) (<["id" := JStr app_id]> ∅) tr0
    = (Returned (inr (Some 1)),
       tr0 ++ [Publish (EmitText ("Key " +:+ repr_str key
                                  +:+ " was specified more than once"))]))
    as Hloop.
  { intros tr0.
    rewrite (merge_items_app schema parse_json_item pre (item :: rest) _ d tr0 tr0).
    - rewrite merge_items_cons, Hitem.
      by destruct (bool_decide_reflect (is_Some (d !! key))).
    - rewrite merge_items_frame, Hpre.
      destruct (merge pre (<["id" := JStr app_id]> ∅) []) as [r evs] eqn:Hrun.
      simpl in Hpre. subst r.
      destruct (merge_items_success _ _ _ _ _ _ _ Hrun) as [-> _].
      simpl. by rewrite app_nil_r. }
  split; [apply Hloop|].
  unfold _update, call, emit, mbind, M_bind, mret, M_ret.
  rewrite Happ. simpl.
  destruct (bool_decide_reflect (len (pre ++ item :: rest) = 0)) as [Hlen|_].
  { unfold len in Hlen. rewrite length_app in Hlen. simpl in Hlen. lia. }
  rewrite Hloop. by rewrite <- app_assoc.
Qed.

End BuildFacts.

Lemma merge_items_distinct_witness :
  Forall2 (λ item kv, Fixture.parse_json_item item Fixture.schema = inl kv)
    ["cmd=sleep 10"; "instances=3"]
    [("cmd", JStr "sleep 10"); ("instances", JInt 3)]
  ∧ NoDup ["cmd"; "instances"]
  ∧ ("id" ∉ ["cmd"; "instances"])
  ∧ ∃ d : gmap string Json,
      merge_items Fixture.schema Fixture.parse_json_item
        ["cmd=sleep 10"; "instances=3"] (<["id" := JStr "/app"]> ∅) []
        = (Returned (inl d), [])
      ∧ dom d = {["id"]} ∪ list_to_set ["cmd"; "instances"]
      ∧ d !! "id" = Some (JStr "/app")
      ∧ ∀ k v, (k, v) ∈ [("cmd", JStr "sleep 10"); ("instances", JInt 3)] →
               d !! k = Some v.
Proof.
  assert (H1 : Forall2
            (λ item kv, Fixture.parse_json_item item Fixture.schema = inl kv)
            ["cmd=sleep 10"; "instances=3"]
            [("cmd", JStr "sleep 10"); ("instances", JInt 3)]).
  { repeat constructor. }
  assert (H2 : NoDup ["cmd"; "instances"]).
  { apply (bool_decide_unpack _). vm_compute. exact I. }
  assert (H3 : "id" ∉ ["cmd"; "instances"]).
  { apply (bool_decide_unpack _). vm_compute. exact I. }
  split; [exact H1|]. split; [exact H2|]. split; [exact H3|].
  exact (merge_items_distinct Fixture.schema Fixture.parse_json_item
           "/app" _ _ [] H1 H2 H3).
Defined.

(** C2, as stated, fails: the single item [id=/other] has a key that the
    schema declares, and no key twice, yet the loop stops with status 1,
    because [id] is in the descriptor before the loop starts. *)
Lemma merge_items_id_collision :
  ¬ ∀ items : list string,
      NoDup (JsonItem.key_of <$> items) →
      Forall (JsonItem.declared Fixture.schema) items →
      ∃ d : gmap string Json,
        (merge_items Fixture.schema Fixture.parse_json_item
           items (<["id" := JStr "/app"]> ∅) []).1 = Returned (inl d)
        ∧ dom d = {["id"]} ∪ list_to_set (omap JsonItem.key_of items).
Proof.
  intros H. destruct (H ["id=/other"]) as (d & Hrun & _).
  - apply NoDup_singleton.
  - constructor; [|constructor]. exists "id". split; [reflexivity|by eexists].
  - vm_compute in Hrun. discriminate Hrun.
Qed.

Lemma update_duplicate_key_witness :
  let client := Fixture.client_of Fixture.running_app in
  let d : gmap string Json :=
    <["instances" := JInt 3]>
      (<["cmd" := JStr "sleep 10"]> (<["id" := JStr "/app"]> ∅)) in
  (merge_items Fixture.schema Fixture.parse_json_item
     ["cmd=sleep 10"; "instances=3"] (<["id" := JStr "/app"]> ∅) []).1
    = Returned (inl d)
  ∧ Fixture.parse_json_item "cmd=ls" Fixture.schema = inl ("cmd", JStr "ls")
  ∧ is_Some (d !! "cmd")
  ∧ _update client Fixture.schema false "" (λ _, inl JNull)
      JsonItem.validate_json Fixture.parse_json_item
      "/app" ["cmd=sleep 10"; "instances=3"; "cmd=ls"; "cpus=x"] false []
    = (Returned (Some 1),
       [CallGetApp "/app" None;
        Publish (EmitText "Key 'cmd' was specified more than once")]).
Proof.
  intros client d.
  assert (H1 : (merge_items Fixture.schema Fixture.parse_json_item
                  ["cmd=sleep 10"; "instances=3"]
                  (<["id" := JStr "/app"]> ∅) []).1 = Returned (inl d))
    by (vm_compute; reflexivity).
  assert (H2 : Fixture.parse_json_item "cmd=ls" Fixture.schema
               = inl ("cmd", JStr "ls")) by reflexivity.
  assert (H3 : is_Some (d !! "cmd")) by (vm_compute; eexists; reflexivity).
  split; [exact H1|]. split; [exact H2|]. split; [exact H3|].
  exact (proj2 (update_duplicate_key client Fixture.schema false ""
                  (λ _, inl JNull) JsonItem.validate_json
                  Fixture.parse_json_item "/app" Fixture.running_app
                  ["cmd=sleep 10"; "instances=3"] "cmd=ls" ["cpus=x"]
                  "cmd" (JStr "ls") d false [] H1 H2 H3 eq_refl)).
Defined.

(** ** Results and exceptions of the core functions *)

(** C8: [_parse_int] returns for every string, with either an integer and
    no error or no value and an error; so does [_calculate_version] with a
    version or an error; the merge loop of [_update] returns either a
    descriptor or status 1 after publishing one error.  None of them ends
    in an exception. *)
Theorem core_functions_return :
  (∀ s tr, ∃ r tr', _parse_int s tr = (Returned r, tr') ∧ exactly_one r)
  ∧ (∀ client app_id version tr,
       ∃ r tr', _calculate_version client app_id version tr = (Returned r, tr')
                ∧ exactly_one r)
  ∧ (∀ (Schema : Type) (schema : Schema) parse_json_item items app_json tr,
       (∃ d, merge_items schema parse_json_item items app_json tr
               = (Returned (inl d), tr))
       ∨ (∃ x, merge_items schema parse_json_item items app_json tr
                 = (Returned (inr (Some 1)), tr ++ [Publish x]))).
Proof.
  split; [|split].
  - intros s tr.
    destruct (parse_int_cases s tr) as [(z & _ & ->)|(e & _ & ->)];
      eexists _, _; (split; [done|]); [left|right]; by eexists.
  - apply calculate_version_returns.
  - intros Schema schema parse_json_item. apply merge_items_returns.
Qed.

(** C9: [_calculate_version] never ends in [IndexError]; whenever the
    branch that indexes the history is taken (the token parsed as a negative
    [value], the lookup gave [versions], and [len(versions) <= -value] was
    false), the index [-value] lies inside [versions] and the entry there
    is the result. *)
Theorem calculate_version_index_in_bounds client app_id version tr :
  (_calculate_version client app_id version tr).1 ≠ Raised IndexError
  ∧ ∀ value versions,
      Py.int version = Returned value →
      value < 0 →
      get_app_versions client app_id (-1 * value + 1) = inl versions →
      (len versions <=? -1 * value) = false →
      0 ≤ -1 * value < len versions
      ∧ ∃ v, Py.index versions (-1 * value) = Returned v
             ∧ (_calculate_version client app_id version tr).1
                 = Returned (Some v, None).
Proof.
  split.
  - destruct (calculate_version_returns client app_id version tr)
      as (r & tr' & -> & _). done.
  - intros value versions Hparse Hneg Hlookup Hguard.
    apply Z.leb_gt in Hguard. split; [lia|].
    destruct (index_in_range versions (-1 * value)) as (v & _ & Hidx);
      [lia|done|].
    exists v. split; [done|].
    rewrite (calculate_version_parsed _ _ _ _ _ Hparse), Hlookup.
    destruct (Z.ltb_spec value 0) as [_|?]; [|lia].
    destruct (Z.leb_spec (len versions) (-1 * value)) as [?|_]; [lia|].
    by rewrite Hidx.
Qed.

Lemma calculate_version_index_in_bounds_witness :
  Py.int "-2" = Returned (-2)
  ∧ -2 < 0
  ∧ (len Fixture.history <=? -1 * -2) = false
  ∧ 0 ≤ -1 * -2 < len Fixture.history
  ∧ ∃ v, Py.index Fixture.history (-1 * -2) = Returned v
         ∧ (_calculate_version (Fixture.client_of Fixture.running_app)
              "/app" "-2" []).1 = Returned (Some v, None).
Proof.
  assert (H1 : Py.int "-2" = Returned (-2)) by reflexivity.
  assert (H2 : -2 < 0) by lia.
  assert (H3 : (len Fixture.history <=? -1 * -2) = false) by reflexivity.
  split; [exact H1|]. split; [exact H2|]. split; [exact H3|].
  exact (proj2 (calculate_version_index_in_bounds
                  (Fixture.client_of Fixture.running_app) "/app" "-2" [])
               (-2) Fixture.history H1 H2 eq_refl H3).
Defined.

(** ** Process status of the commands *)

(** C4: [_stop] on a running application whose stop update is accepted.
    The request is sent and the deployment is reported, but the function
    falls off its end: the status is [None], not [0]. *)
Theorem stop_success_status (repr_other : Json → string) :
  _stop (Fixture.client_of Fixture.running_app) repr_other "/app" false []
    = (Returned None,
       [CallGetApp "/app" None;
        CallUpdateApp "/app" (JObject {["instances" := JInt 0]}) false;
        Publish (EmitText "Created deployment deployment-1")]).
Proof. reflexivity. Qed.

(** The sibling command, on a stopped application, ends with status 0. *)
Example start_success_status (repr_other : Json → string) :
  _start (Fixture.client_of Fixture.stopped_app) Fixture.schema
    JsonItem.validate_json repr_other "/app" None false []
    = (Returned (Some 0),
       [CallGetApp "/app" None;
        CallUpdateApp "/app"
          (JObject (<["instances" := JInt 1]> (<["id" := JStr "/app"]> ∅)))
          false;
        Publish (EmitText "Created deployment deployment-1")]).
Proof. reflexivity. Qed.

(** ** The instance count of [_start] *)

Section StartFacts.

Context {Schema : Type}.
Variable client : Client.
Variable schema : Schema.
Variable validate_json : Json → Schema → option Error.
Variable repr_other : Json → string.

#[local] Abbreviation start := (_start client schema validate_json repr_other).

(** C10: for an application that exists and is not started, [_start]
    without a count, or with a count that parses as a positive integer,
    validates and submits the descriptor whose [instances] is 1, or that
    integer; with a count that does not parse, or parses as an integer
    [<= 0], it publishes an error and returns 1, and no update request is
    sent. *)
Theorem start_instances app_id force desc running tr :
  get_app client app_id None = inl desc →
  getitem desc "instances" = Returned running →
  json_gt_zero running = Returned false →
  (∀ instances count,
     (instances = None ∧ count = 1)
     ∨ (∃ s, instances = Some s ∧ Py.int s = Returned count ∧ 0 < count) →
     let app_json : gmap string Json :=
       <["instances" := JInt count]> (<["id" := JStr app_id]> ∅) in
     app_json !! "instances" = Some (JInt count)
     ∧ start app_id instances force tr =
         match validate_json (JObject app_json) schema with
         | Some err =>
             (Returned (Some 1),
              tr ++ [CallGetApp app_id None; Publish (EmitError err)])
         | None =>
             match update_app client app_id (JObject app_json) force with
             | inl deployment =>
                 (Returned (Some 0),
                  tr ++ [CallGetApp app_id None;
                         CallUpdateApp app_id (JObject app_json) force;
                         Publish (EmitText ("Created deployment " +:+ deployment))])
             | inr err =>
                 (Returned (Some 1),
                  tr ++ [CallGetApp app_id None;
                         CallUpdateApp app_id (JObject app_json) force;
                         Publish (EmitError err)])
             end
         end)
  ∧ (∀ s e,
       Py.int s = Raised e →
       start app_id (Some s) force tr =
         (Returned (Some 1),
          tr ++ [CallGetApp app_id None;
                 LogError ("Unhandled exception while parsing string as int: "
                           +:+ repr_str s +:+ " -- " +:+ repr_exc_class e);
                 Publish (EmitError (DefaultError "Error parsing string as int"))]))
  ∧ (∀ s count,
       Py.int s = Returned count →
       count ≤ 0 →
       start app_id (Some s) force tr =
         (Returned (Some 1),
          tr ++ [CallGetApp app_id None;
                 Publish (EmitText ("The number of instances must be positive: "
                                    +:+ repr_int count +:+ "."))])).
Proof.
  intros Happ Hrunning Hstopped.
  split; [|split].
  - intros instances count Hcount app_json.
    split; [apply lookup_insert_eq|].
    unfold _start, call, emit, publish, lift, mbind, M_bind, mret, M_ret.
    rewrite Happ. simpl. rewrite Hrunning, Hstopped.
    destruct Hcount as [[-> ->]|(s & -> & Hparse & Hpos)].
    + fold app_json.
      destruct (validate_json (JObject app_json) schema) as [err|];
        [by rewrite <- app_assoc|].
      destruct (update_app client app_id (JObject app_json) force);
        simpl; by rewrite <- !app_assoc.
    + rewrite (parse_int_returned _ _ _ Hparse).
      destruct (Z.leb_spec count 0) as [?|_]; [lia|].
      fold app_json.
      destruct (validate_json (JObject app_json) schema) as [err|];
        [by rewrite <- app_assoc|].
      destruct (update_app client app_id (JObject app_json) force);
        simpl; by rewrite <- !app_assoc.
  - intros s e Hparse.
    unfold _start, call, emit, publish, lift, mbind, M_bind, mret, M_ret.
    rewrite Happ. simpl. rewrite Hrunning, Hstopped.
    rewrite (parse_int_raised _ _ _ Hparse). by rewrite <- !app_assoc.
  - intros s count Hparse Hcount.
    unfold _start, call, emit, publish, lift, mbind, M_bind, mret, M_ret.
    rewrite Happ. simpl. rewrite Hrunning, Hstopped.
    rewrite (parse_int_returned _ _ _ Hparse).
    destruct (Z.leb_spec count 0) as [_|?]; [|lia].
    by rewrite <- !app_assoc.
Qed.

End StartFacts.

Lemma start_instances_witness :
  let client := Fixture.client_of Fixture.stopped_app in
  let start :=
    _start client Fixture.schema JsonItem.validate_json (λ _, "") in
  get_app client "/app" None = inl Fixture.stopped_app
  ∧ getitem Fixture.stopped_app "instances" = Returned (JInt 0)
  ∧ json_gt_zero (JInt 0) = Returned false
  ∧ Py.int "three" = Raised ValueError
  ∧ Py.int "0" = Returned 0
  ∧ start "/app" None false []
      = (Returned (Some 0),
         [CallGetApp "/app" None;
          CallUpdateApp "/app"
            (JObject (<["instances" := JInt 1]> (<["id" := JStr "/app"]> ∅)))
            false;
          Publish (EmitText "Created deployment deployment-1")])
  ∧ start "/app" (Some "three") false []
      = (Returned (Some 1),
         [CallGetApp "/app" None;
          LogError "Unhandled exception while parsing string as int: 'three' -- <class 'ValueError'>";
          Publish (EmitError (DefaultError "Error parsing string as int"))])
  ∧ start "/app" (Some "0") false []
      = (Returned (Some 1),
         [CallGetApp "/app" None;
          Publish (EmitText "The number of instances must be positive: 0.")]).
Proof.
  intros client start.
  assert (H1 : get_app client "/app" None = inl Fixture.stopped_app)
    by reflexivity.
  assert (H2 : getitem Fixture.stopped_app "instances" = Returned (JInt 0))
    by reflexivity.
  assert (H3 : json_gt_zero (JInt 0) = Returned false) by reflexivity.
  assert (H4 : Py.int "three" = Raised ValueError) by reflexivity.
  assert (H5 : Py.int "0" = Returned 0) by reflexivity.
  assert (H6 : 0 ≤ 0) by lia.
  destruct (start_instances client Fixture.schema JsonItem.validate_json
              (λ _, "") "/app" false Fixture.stopped_app (JInt 0) []
              H1 H2 H3) as (Hcount & Hraised & Hlow).
  split; [exact H1|]. split; [exact H2|]. split; [exact H3|].
  split; [exact H4|]. split; [exact H5|].
  split; [|split].
  - exact (proj2 (Hcount None 1 (or_introl (conj eq_refl eq_refl)))).
  - exact (Hraised "three" ValueError H4).
  - exact (Hlow "0" 0 H5 H6).
Defined.

(** * Further facts about the commands *)

Section ExistenceCheckFacts.

Context {Schema : Type}.
Variable client : Client.
Variable schema : Schema.
Variable stdin_isatty : bool.
Variable stdin_read : string.
Variable load_jsons : string → Json + Error.
Variable validate_json : Json → Schema → option Error.
Variable parse_json_item : string → Schema → (string * Json) + Error.
Variable repr_other : Json → string.

#[local] Abbreviation start := (_start client schema validate_json repr_other).
#[local] Abbreviation stop := (_stop client repr_other).
#[local] Abbreviation update :=
  (_update client schema stdin_isatty stdin_read load_jsons validate_json
           parse_json_item).

(** X1: when the lookup of the application fails, [_start], [_stop] and
    [_update] publish that error and return 1; the lookup is the only call
    made on the client, and neither the count nor the items are read. *)
Theorem app_lookup_failure app_id err instances json_items force tr :
  get_app client app_id None = inr err →
  _start client schema validate_json repr_other app_id instances force tr
    = (Returned (Some 1), tr ++ [CallGetApp app_id None; Publish (EmitError err)])
  ∧ _stop client repr_other app_id force tr
    = (Returned (Some 1), tr ++ [CallGetApp app_id None; Publish (EmitError err)])
  ∧ _update client schema stdin_isatty stdin_read load_jsons validate_json
      parse_json_item app_id json_items force tr
    = (Returned (Some 1), tr ++ [CallGetApp app_id None; Publish (EmitError err)]).
Proof.
  intros Happ. unfold _start, _stop, _update. run_command. rewrite Happ. simpl.
  by rewrite <- !app_assoc.
Qed.

(** X2: [_start] on an application whose [instances] is already positive
    publishes the "already started" message with that number and returns
    1; the count argument is not parsed and no update is requested. *)
Theorem start_already_started app_id instances force desc running tr :
  get_app client app_id None = inl desc →
  getitem desc "instances" = Returned running →
  json_gt_zero running = Returned true →
  start app_id instances force tr
    = (Returned (Some 1),
       tr ++ [CallGetApp app_id None;
              Publish (EmitText ("Application " +:+ repr_str app_id
                                 +:+ " already started: "
                                 +:+ repr_json repr_other running
                                 +:+ " instances."))]).
Proof.
  intros Happ Hrunning Hstarted. unfold _start. run_command.
  rewrite Happ. simpl. rewrite Hrunning, Hstarted. by rewrite <- !app_assoc.
Qed.

(** X3: [_stop] on an application whose [instances] is zero or less
    publishes the "already stopped" message and returns 1 without
    requesting an update. *)
Theorem stop_already_stopped app_id force desc running tr :
  get_app client app_id None = inl desc →
  getitem desc "instances" = Returned running →
  json_le_zero running = Returned true →
  stop app_id force tr
    = (Returned (Some 1),
       tr ++ [CallGetApp app_id None;
              Publish (EmitText ("Application " +:+ repr_str app_id
                                 +:+ " already stopped: "
                                 +:+ repr_json repr_other running
                                 +:+ " instances."))]).
Proof.
  intros Happ Hrunning Hstopped. unfold _stop. run_command.
  rewrite Happ. simpl. rewrite Hrunning, Hstopped. by rewrite <- !app_assoc.
Qed.

(** X4: [_stop] on a running application requests exactly one update, the
    descriptor [{'instances': 0}] with the caller's force flag.  A refused
    update is published and gives status 1; an accepted one is reported as
    "Created deployment ..." and the function ends without a [return]. *)
Theorem stop_running app_id force desc running tr :
  get_app client app_id None = inl desc →
  getitem desc "instances" = Returned running →
  json_le_zero running = Returned false →
  stop app_id force tr =
    match update_app client app_id (JObject {["instances" := JInt 0]}) force with
    | inl deployment =>
        (Returned None,
         tr ++ [CallGetApp app_id None;
                CallUpdateApp app_id (JObject {["instances" := JInt 0]}) force;
                Publish (EmitText ("Created deployment " +:+ deployment))])
    | inr err =>
        (Returned (Some 1),
         tr ++ [CallGetApp app_id None;
                CallUpdateApp app_id (JObject {["instances" := JInt 0]}) force;
                Publish (EmitError err)])
    end.
Proof.
  intros Happ Hrunning Hstopped. unfold _stop. run_command.
  rewrite Happ. simpl. rewrite Hrunning, Hstopped.
  destruct (update_app client app_id _ force); simpl; by rewrite <- !app_assoc.
Qed.

(** X5: an application resource without the key [instances] makes
    [_start] and [_stop] end in [KeyError] right after the lookup: the
    exception is not caught, nothing is published and no status is
    returned. *)
Theorem missing_instances_raises app_id instances force desc tr :
  get_app client app_id None = inl desc →
  desc !! "instances" = None →
  _start client schema validate_json repr_other app_id instances force tr
    = (Raised KeyError, tr ++ [CallGetApp app_id None])
  ∧ _stop client repr_other app_id force tr
    = (Raised KeyError, tr ++ [CallGetApp app_id None]).
Proof.
  intros Happ Hmissing. unfold _start, _stop, getitem. run_command.
  rewrite Happ. simpl. by rewrite Hmissing.
Qed.

End ExistenceCheckFacts.

Lemma app_lookup_failure_witness :
  get_app Scenario.empty_cluster "/app" None = inr Scenario.unknown_app
  ∧ _start Scenario.empty_cluster Fixture.schema JsonItem.validate_json
      (λ _, "") "/app" (Some "3") false []
    = (Returned (Some 1),
       [CallGetApp "/app" None; Publish (EmitError Scenario.unknown_app)])
  ∧ _stop Scenario.empty_cluster (λ _, "") "/app" false []
    = (Returned (Some 1),
       [CallGetApp "/app" None; Publish (EmitError Scenario.unknown_app)])
  ∧ _update Scenario.empty_cluster Fixture.schema true "" (λ _, inl JNull)
      JsonItem.validate_json Fixture.parse_json_item "/app" ["cmd=ls"] false []
    = (Returned (Some 1),
       [CallGetApp "/app" None; Publish (EmitError Scenario.unknown_app)]).
Proof.
  assert (H1 : get_app Scenario.empty_cluster "/app" None
               = inr Scenario.unknown_app) by reflexivity.
  split; [exact H1|].
  exact (app_lookup_failure Scenario.empty_cluster Fixture.schema true ""
           (λ _, inl JNull) JsonItem.validate_json Fixture.parse_json_item
           (λ _, "") "/app" Scenario.unknown_app (Some "3") ["cmd=ls"] false []
           H1).
Defined.

Lemma start_already_started_witness :
  get_app (Fixture.client_of Fixture.running_app) "/app" None
    = inl Fixture.running_app
  ∧ getitem Fixture.running_app "instances" = Returned (JInt 2)
  ∧ json_gt_zero (JInt 2) = Returned true
  ∧ _start (Fixture.client_of Fixture.running_app) Fixture.schema
      JsonItem.validate_json (λ _, "") "/app" (Some "not a number") true []
    = (Returned (Some 1),
       [CallGetApp "/app" None;
        Publish (EmitText "Application '/app' already started: 2 instances.")]).
Proof.
  assert (H1 : get_app (Fixture.client_of Fixture.running_app) "/app" None
               = inl Fixture.running_app) by reflexivity.
  assert (H2 : getitem Fixture.running_app "instances" = Returned (JInt 2))
    by reflexivity.
  assert (H3 : json_gt_zero (JInt 2) = Returned true) by reflexivity.
  split; [exact H1|]. split; [exact H2|]. split; [exact H3|].
  exact (start_already_started (Fixture.client_of Fixture.running_app)
           Fixture.schema JsonItem.validate_json (λ _, "") "/app"
           (Some "not a number") true Fixture.running_app (JInt 2) []
           H1 H2 H3).
Defined.

Lemma stop_already_stopped_witness :
  get_app (Fixture.client_of Fixture.stopped_app) "/app" None
    = inl Fixture.stopped_app
  ∧ getitem Fixture.stopped_app "instances" = Returned (JInt 0)
  ∧ json_le_zero (JInt 0) = Returned true
  ∧ _stop (Fixture.client_of Fixture.stopped_app) (λ _, "") "/app" false []
    = (Returned (Some 1),
       [CallGetApp "/app" None;
        Publish (EmitText "Application '/app' already stopped: 0 instances.")]).
Proof.
  assert (H1 : get_app (Fixture.client_of Fixture.stopped_app) "/app" None
               = inl Fixture.stopped_app) by reflexivity.
  assert (H2 : getitem Fixture.stopped_app "instances" = Returned (JInt 0))
    by reflexivity.
  assert (H3 : json_le_zero (JInt 0) = Returned true) by reflexivity.
  split; [exact H1|]. split; [exact H2|]. split; [exact H3|].
  exact (stop_already_stopped (Fixture.client_of Fixture.stopped_app)
           (λ _, "") "/app" false Fixture.stopped_app (JInt 0) [] H1 H2 H3).
Defined.

Lemma stop_running_witness :
  get_app (Scenario.locked_cluster Fixture.running_app) "/app" None
    = inl Fixture.running_app
  ∧ getitem Fixture.running_app "instances" = Returned (JInt 2)
  ∧ json_le_zero (JInt 2) = Returned false
  ∧ _stop (Scenario.locked_cluster Fixture.running_app) (λ _, "") "/app" true []
    = (Returned (Some 1),
       [CallGetApp "/app" None;
        CallUpdateApp "/app" (JObject {["instances" := JInt 0]}) true;
        Publish (EmitError Scenario.locked)]).
Proof.
  assert (H1 : get_app (Scenario.locked_cluster Fixture.running_app) "/app" None
               = inl Fixture.running_app) by reflexivity.
  assert (H2 : getitem Fixture.running_app "instances" = Returned (JInt 2))
    by reflexivity.
  assert (H3 : json_le_zero (JInt 2) = Returned false) by reflexivity.
  split; [exact H1|]. split; [exact H2|]. split; [exact H3|].
  exact (stop_running (Scenario.locked_cluster Fixture.running_app)
           (λ _, "") "/app" true Fixture.running_app (JInt 2) [] H1 H2 H3).
Defined.

Lemma missing_instances_raises_witness :
  get_app (Fixture.client_of Scenario.bare_app) "/app" None
    = inl Scenario.bare_app
  ∧ Scenario.bare_app !! "instances" = None
  ∧ _start (Fixture.client_of Scenario.bare_app) Fixture.schema
      JsonItem.validate_json (λ _, "") "/app" None false []
    = (Raised KeyError, [CallGetApp "/app" None])
  ∧ _stop (Fixture.client_of Scenario.bare_app) (λ _, "") "/app" false []
    = (Raised KeyError, [CallGetApp "/app" None]).
Proof.
  assert (H1 : get_app (Fixture.client_of Scenario.bare_app) "/app" None
               = inl Scenario.bare_app) by reflexivity.
  assert (H2 : Scenario.bare_app !! "instances" = None) by reflexivity.
  split; [exact H1|]. split; [exact H2|].
  exact (missing_instances_raises (Fixture.client_of Scenario.bare_app)
           Fixture.schema JsonItem.validate_json (λ _, "") "/app" None false
           Scenario.bare_app [] H1 H2).
Defined.

(** ** Version resolution inside [_show] *)

(** The resolver on a relative token whose history is long enough. *)
Lemma calculate_version_selects client app_id version n versions tr :
  1 ≤ n →
  Py.int version = Returned (- n) →
  get_app_versions client app_id (n + 1) = inl versions →
  n < len versions →
  ∃ v, versions !! Z.to_nat n = Some v
       ∧ _calculate_version client app_id version tr
           = (Returned (Some v, None), tr ++ [CallGetAppVersions app_id (n + 1)]).
Proof.
  intros Hn Hparse Hlookup Hlen.
  rewrite (calculate_version_parsed _ _ _ _ _ Hparse).
  destruct (Z.ltb_spec (- n) 0) as [_|?]; [|lia].
  replace (-1 * - n) with n by lia. rewrite Hlookup.
  destruct (Z.leb_spec (len versions) n) as [?|_]; [lia|].
  destruct (index_in_range versions n) as (v & Hv & Hidx); [lia|done|].
  exists v. by rewrite Hidx.
Qed.

(** What the resolver adds to the trace: nothing, or the log line of
    [_parse_int], or one history lookup for this application. *)
Lemma calculate_version_events client app_id version tr :
  ∃ evs, (_calculate_version client app_id version tr).2 = tr ++ evs
         ∧ (evs = []
            ∨ (∃ msg, evs = [LogError msg])
            ∨ (∃ count, 2 ≤ count ∧ evs = [CallGetAppVersions app_id count])).
Proof.
  destruct (Py.int version) as [value|e] eqn:Hparse.
  - rewrite (calculate_version_parsed _ _ _ _ _ Hparse).
    destruct (Z.ltb_spec value 0) as [Hneg|_].
    + exists [CallGetAppVersions app_id (-1 * value + 1)]. split.
      * destruct (get_app_versions client app_id (-1 * value + 1))
          as [versions|err]; [|done].
        destruct (len versions <=? -1 * value); [done|].
        by destruct (Py.index versions (-1 * value)).
      * right. right. eexists. split; [|done]. lia.
    + exists []. split; [by rewrite app_nil_r|by left].
  - unfold _calculate_version, mbind, M_bind.
    rewrite (parse_int_raised _ _ _ Hparse).
    eexists. split; [done|]. right. left. by eexists.
Qed.

(** X6: whatever the token and the client, [_calculate_version] adds to the
    trace either nothing, or the one log line of [_parse_int], or a single
    history lookup for the given application that asks for at least two
    entries.  It publishes nothing and calls no other client method. *)
Theorem calculate_version_effects client app_id version tr :
  ∃ evs, (_calculate_version client app_id version tr).2 = tr ++ evs
         ∧ (evs = []
            ∨ (∃ msg, evs = [LogError msg])
            ∨ (∃ count, 2 ≤ count ∧ evs = [CallGetAppVersions app_id count]))
         ∧ Forall (λ ev, is_publish ev = false ∧ is_app_fetch ev = false
                         ∧ is_mutation ev = false) evs.
Proof.
  destruct (calculate_version_events client app_id version tr)
    as (evs & Htrace & Hevs).
  exists evs. split; [done|]. split; [done|].
  destruct Hevs as [->|[(msg & ->)|(count & _ & ->)]]; repeat constructor.
Qed.

(** X7: a failed history lookup is handed back as it is: for a relative
    token [-n], when [get_app_versions] answers with an error,
    [_calculate_version] returns that very error and no version. *)
Theorem calculate_version_lookup_failure client app_id version n err tr :
  1 ≤ n →
  Py.int version = Returned (- n) →
  get_app_versions client app_id (n + 1) = inr err →
  _calculate_version client app_id version tr
    = (Returned (None, Some err), tr ++ [CallGetAppVersions app_id (n + 1)]).
Proof.
  intros Hn Hparse Hlookup.
  rewrite (calculate_version_parsed _ _ _ _ _ Hparse).
  destruct (Z.ltb_spec (- n) 0) as [_|?]; [|lia].
  replace (-1 * - n) with n by lia. by rewrite Hlookup.
Qed.

Lemma calculate_version_lookup_failure_witness :
  1 ≤ 1
  ∧ Py.int "-1" = Returned (- 1)
  ∧ get_app_versions Scenario.empty_cluster "/app" (1 + 1)
      = inr Scenario.unknown_app
  ∧ _calculate_version Scenario.empty_cluster "/app" "-1" []
      = (Returned (None, Some Scenario.unknown_app),
         [CallGetAppVersions "/app" 2]).
Proof.
  assert (H1 : 1 ≤ 1) by lia.
  assert (H2 : Py.int "-1" = Returned (- 1)) by reflexivity.
  assert (H3 : get_app_versions Scenario.empty_cluster "/app" (1 + 1)
               = inr Scenario.unknown_app) by reflexivity.
  split; [exact H1|]. split; [exact H2|]. split; [exact H3|].
  exact (calculate_version_lookup_failure Scenario.empty_cluster "/app" "-1" 1
           Scenario.unknown_app [] H1 H2 H3).
Defined.

(** [_show] once the version is resolved. *)
Lemma show_resolved client app_id version v tr tr' :
  _calculate_version client app_id version tr = (Returned (Some v, None), tr') →
  _show client app_id (Some version) tr =
    match get_app client app_id (Some v) with
    | inl app =>
        (Returned (Some 0),
         tr' ++ [CallGetApp app_id (Some v); Publish (EmitJson (JObject app))])
    | inr err =>
        (Returned (Some 1),
         tr' ++ [CallGetApp app_id (Some v); Publish (EmitError err)])
    end.
Proof.
  intros Hresolve. unfold _show. run_command. rewrite Hresolve. simpl.
  destruct (get_app client app_id (Some v)); simpl; by rewrite <- !app_assoc.
Qed.

(** X8: [_show] with a relative version [-n] asks for [n + 1] history
    entries and then fetches the application at the entry of index [n]:
    that entry, not the token, is the version given to [get_app].  The
    application is published with status 0, an error with status 1. *)
Theorem show_relative_version client app_id version n versions tr :
  1 ≤ n →
  Py.int version = Returned (- n) →
  get_app_versions client app_id (n + 1) = inl versions →
  n < len versions →
  ∃ v, versions !! Z.to_nat n = Some v
       ∧ _show client app_id (Some version) tr =
           match get_app client app_id (Some v) with
           | inl app =>
               (Returned (Some 0),
                tr ++ [CallGetAppVersions app_id (n + 1);
                       CallGetApp app_id (Some v);
                       Publish (EmitJson (JObject app))])
           | inr err =>
               (Returned (Some 1),
                tr ++ [CallGetAppVersions app_id (n + 1);
                       CallGetApp app_id (Some v);
                       Publish (EmitError err)])
           end.
Proof.
  intros Hn Hparse Hlookup Hlen.
  destruct (calculate_version_selects client app_id version n versions tr)
    as (v & Hv & Hresolve); [done..|].
  exists v. split; [done|].
  rewrite (show_resolved _ _ _ _ _ _ Hresolve).
  destruct (get_app client app_id (Some v)); by rewrite <- !app_assoc.
Qed.

Lemma show_relative_version_witness :
  1 ≤ 2
  ∧ Py.int "-2" = Returned (- 2)
  ∧ 2 < len Fixture.history
  ∧ _show (Fixture.client_of Fixture.running_app) "/app" (Some "-2") []
      = (Returned (Some 0),
         [CallGetAppVersions "/app" 3;
          CallGetApp "/app" (Some "v1");
          Publish (EmitJson (JObject Fixture.running_app))]).
Proof.
  assert (H1 : 1 ≤ 2) by lia.
  assert (H2 : Py.int "-2" = Returned (- 2)) by reflexivity.
  assert (H3 : 2 < len Fixture.history) by reflexivity.
  split; [exact H1|]. split; [exact H2|]. split; [exact H3|].
  destruct (show_relative_version (Fixture.client_of Fixture.running_app)
              "/app" "-2" 2 Fixture.history [] H1 H2 eq_refl H3)
    as (v & Hv & Hshow).
  simpl in Hv. injection Hv as <-. exact Hshow.
Defined.

(** X9: [_show] with a version that is not an integer gives the token
    itself to [get_app]; the history is not consulted. *)
Theorem show_absolute_version client app_id version e tr :
  Py.int version = Raised e →
  _show client app_id (Some version) tr =
    let logged :=
      LogError ("Unhandled exception while parsing string as int: "
                +:+ repr_str version +:+ " -- " +:+ repr_exc_class e) in
    match get_app client app_id (Some version) with
    | inl app =>
        (Returned (Some 0),
         tr ++ [logged; CallGetApp app_id (Some version);
                Publish (EmitJson (JObject app))])
    | inr err =>
        (Returned (Some 1),
         tr ++ [logged; CallGetApp app_id (Some version);
                Publish (EmitError err)])
    end.
Proof.
  intros Hparse.
  assert (_calculate_version client app_id version tr
          = (Returned (Some version, None),
             tr ++ [LogError ("Unhandled exception while parsing string as int: "
                    +:+ repr_str version +:+ " -- " +:+ repr_exc_class e)]))
    as Hresolve.
  { unfold _calculate_version, mbind, M_bind.
    by rewrite (parse_int_raised _ _ _ Hparse). }
  rewrite (show_resolved _ _ _ _ _ _ Hresolve). simpl.
  destruct (get_app client app_id (Some version)); by rewrite <- !app_assoc.
Qed.

Lemma show_absolute_version_witness :
  Py.int "2015-02-11T09:31:50.021Z" = Raised ValueError
  ∧ _show (Fixture.client_of Fixture.running_app) "/app"
      (Some "2015-02-11T09:31:50.021Z") []
    = (Returned (Some 0),
       [LogError "Unhandled exception while parsing string as int: '2015-02-11T09:31:50.021Z' -- <class 'ValueError'>";
        CallGetApp "/app" (Some "2015-02-11T09:31:50.021Z");
        Publish (EmitJson (JObject Fixture.running_app))]).
Proof.
  assert (H1 : Py.int "2015-02-11T09:31:50.021Z" = Raised ValueError)
    by reflexivity.
  split; [exact H1|].
  exact (show_absolute_version (Fixture.client_of Fixture.running_app) "/app"
           "2015-02-11T09:31:50.021Z" ValueError [] H1).
Defined.

(** X10: when the version cannot be resolved (whatever the reason: a token
    that is not negative, a failed lookup, a history that is too short),
    [_show] publishes the resolver's error and returns 1; the application
    is not fetched and nothing is changed on the cluster. *)
Theorem show_unresolved_version client app_id version err tr tr' :
  _calculate_version client app_id version tr = (Returned (None, Some err), tr') →
  ∃ evs, _show client app_id (Some version) tr
           = (Returned (Some 1), tr ++ evs ++ [Publish (EmitError err)])
         ∧ Forall (λ ev, is_app_fetch ev = false ∧ is_mutation ev = false) evs.
Proof.
  intros Hresolve.
  destruct (calculate_version_events client app_id version tr)
    as (evs & Htrace & Hevs).
  rewrite Hresolve in Htrace. simpl in Htrace. subst tr'.
  exists evs. split.
  - unfold _show. run_command. rewrite Hresolve. simpl.
    by rewrite <- !app_assoc.
  - destruct Hevs as [->|[(msg & ->)|(count & _ & ->)]]; repeat constructor.
Qed.

Lemma show_unresolved_version_witness :
  _calculate_version (Fixture.client_of Fixture.running_app) "/app" "-7" []
    = (Returned (None, Some (DefaultError
         "Application '/app' only has 3 version(s).")),
       [CallGetAppVersions "/app" 8])
  ∧ ∃ evs, _show (Fixture.client_of Fixture.running_app) "/app" (Some "-7") []
           = (Returned (Some 1),
              [] ++ evs ++ [Publish (EmitError (DefaultError
                 "Application '/app' only has 3 version(s)."))])
         ∧ Forall (λ ev, is_app_fetch ev = false ∧ is_mutation ev = false) evs.
Proof.
  assert (H1 : _calculate_version (Fixture.client_of Fixture.running_app)
                 "/app" "-7" []
               = (Returned (None, Some (DefaultError
                    "Application '/app' only has 3 version(s).")),
                  [CallGetAppVersions "/app" 8])) by reflexivity.
  split; [exact H1|].
  exact (show_unresolved_version (Fixture.client_of Fixture.running_app)
           "/app" "-7" _ [] _ H1).
Defined.

(** ** More on the merge loop and [_update] *)

Section MergeCharacterisation.

Context {Schema : Type}.
Variable schema : Schema.
Variable parse_json_item : string → Schema → (string * Json) + Error.

#[local] Abbreviation merge := (merge_items schema parse_json_item).

(** A loop that ends with a descriptor has parsed every item, to keys
    that are pairwise distinct and were not in the descriptor before. *)
Lemma merge_items_inv items app_json d tr tr' :
  merge items app_json tr = (Returned (inl d), tr') →
  ∃ kvs, Forall2 (λ item kv, parse_json_item item schema = inl kv) items kvs
         ∧ NoDup (kvs.*1)
         ∧ (∀ k, k ∈ kvs.*1 → app_json !! k = None)
         ∧ d = list_to_map kvs ∪ app_json.
Proof.
  revert app_json. induction items as [|item items IH]; intros app_json.
  - simpl. unfold mret, M_ret. intros [= <- <-]. exists [].
    split; [constructor|]. split; [constructor|]. split.
    + intros k Hk. by apply elem_of_nil in Hk.
    + simpl. by rewrite (left_id_L ∅ (∪)).
  - rewrite merge_items_cons.
    destruct (parse_json_item item schema) as [[key value]|err] eqn:Hitem;
      [|done].
    destruct (bool_decide_reflect (is_Some (app_json !! key))) as [|Hfresh];
      [done|].
    apply eq_None_not_Some in Hfresh.
    intros Hrun. destruct (IH _ Hrun) as (kvs & Hparse & Hnodup & Hkeys & ->).
    assert (key ∉ kvs.*1) as Hkey.
    { intros Hin. specialize (Hkeys key Hin).
      by rewrite lookup_insert_eq in Hkeys. }
    exists ((key, value) :: kvs).
    split; [by constructor|]. split; [simpl; by constructor|]. split.
    + intros k [->|Hk]%elem_of_cons; [done|].
      specialize (Hkeys k Hk). rewrite lookup_insert_ne in Hkeys; [done|].
      by intros ->.
    + simpl. rewrite <- insert_union_l, <- insert_union_r; [done|].
      by apply not_elem_of_list_to_map_1.
Qed.

(** X11: the merge loop ends with a descriptor exactly when every item
    parses, the keys are pairwise distinct and none of them is in the
    descriptor the loop starts from; the descriptor is then the starting
    one extended by the parsed pairs, and nothing has been published. *)
Theorem merge_items_exactly_when items app_json d tr tr' :
  merge items app_json tr = (Returned (inl d), tr')
  ↔ tr' = tr
    ∧ ∃ kvs, Forall2 (λ item kv, parse_json_item item schema = inl kv) items kvs
             ∧ NoDup (kvs.*1)
             ∧ (∀ k, k ∈ kvs.*1 → app_json !! k = None)
             ∧ d = list_to_map kvs ∪ app_json.
Proof.
  split.
  - intros Hrun. split.
    + by destruct (merge_items_success _ _ _ _ _ _ _ Hrun).
    + by apply (merge_items_inv _ _ _ _ _ Hrun).
  - intros (-> & kvs & Hparse & Hnodup & Hfresh & ->).
    by apply merge_items_fresh.
Qed.

(** X12: the order of the items does not matter to the descriptor: two
    item lists that parse to the same pairs, in any order, with pairwise
    distinct keys that are new to the descriptor, are merged into the same
    descriptor. *)
Theorem merge_items_order items items' kvs kvs' app_json tr :
  Forall2 (λ item kv, parse_json_item item schema = inl kv) items kvs →
  Forall2 (λ item kv, parse_json_item item schema = inl kv) items' kvs' →
  kvs ≡ₚ kvs' →
  NoDup (kvs.*1) →
  (∀ k, k ∈ kvs.*1 → app_json !! k = None) →
  merge items app_json tr = merge items' app_json tr.
Proof.
  intros Hparse Hparse' Hperm Hnodup Hfresh.
  rewrite (merge_items_fresh _ _ _ _ _ _ Hparse Hnodup Hfresh).
  rewrite (merge_items_fresh _ _ items' kvs' app_json tr Hparse').
  - by rewrite (list_to_map_proper kvs kvs' Hnodup Hperm).
  - by rewrite <- Hperm.
  - intros k Hk. apply Hfresh. by rewrite Hperm.
Qed.

(** X13: whenever the loop of [_update] ends with a descriptor, [id] is
    still bound to the application id (no item can replace it), and the
    descriptor has exactly one entry per item besides [id]. *)
Theorem merge_items_keeps_id app_id items d tr tr' :
  merge_items schema parse_json_item items (<["id" := JStr app_id]> ∅) tr
    = (Returned (inl d), tr') →
  d !! "id" = Some (JStr app_id)
  ∧ size d = S (length items).
Proof.
  intros Hrun.
  destruct (merge_items_success _ _ _ _ _ _ _ Hrun) as [_ Hsub].
  destruct (merge_items_inv _ _ _ _ _ Hrun)
    as (kvs & Hparse & Hnodup & Hfresh & ->).
  split.
  - eapply lookup_weaken; [|exact Hsub]. apply lookup_insert_eq.
  - rewrite map_size_disj_union.
    + rewrite map_size_insert_None, map_size_empty by apply lookup_empty.
      rewrite map_size_list_to_map by done.
      rewrite (Forall2_length _ _ _ Hparse). lia.
    + apply map_disjoint_spec. intros k v w Hv Hw.
      apply elem_of_list_to_map_2 in Hv.
      assert (k ∈ kvs.*1) as Hk by (apply list_elem_of_fmap; by exists (k, v)).
      specialize (Hfresh k Hk). by rewrite Hfresh in Hw.
Qed.

End MergeCharacterisation.

Lemma merge_items_exactly_when_witness :
  merge_items Fixture.schema Fixture.parse_json_item
    ["cmd=sleep 10"; "instances=3"] (<["id" := JStr "/app"]> ∅) []
    = (Returned (inl (<["cmd" := JStr "sleep 10"]>
                        (<["instances" := JInt 3]>
                           (<["id" := JStr "/app"]> ∅)))), [])
  ∧ ∃ kvs,
      Forall2 (λ item kv, Fixture.parse_json_item item Fixture.schema = inl kv)
        ["cmd=sleep 10"; "instances=3"] kvs
      ∧ NoDup (kvs.*1)
      ∧ (∀ k, k ∈ kvs.*1 → (<["id" := JStr "/app"]> ∅ : gmap string Json) !! k = None)
      ∧ (<["cmd" := JStr "sleep 10"]>
           (<["instances" := JInt 3]> (<["id" := JStr "/app"]> ∅))
         : gmap string Json)
        = list_to_map kvs ∪ <["id" := JStr "/app"]> ∅.
Proof.
  assert (H1 : merge_items Fixture.schema Fixture.parse_json_item
                 ["cmd=sleep 10"; "instances=3"] (<["id" := JStr "/app"]> ∅) []
               = (Returned (inl (<["cmd" := JStr "sleep 10"]>
                                   (<["instances" := JInt 3]>
                                      (<["id" := JStr "/app"]> ∅)))), []))
    by (vm_compute; reflexivity).
  split; [exact H1|].
  exact (proj2 (proj1 (merge_items_exactly_when Fixture.schema
                         Fixture.parse_json_item _ _ _ [] []) H1)).
Defined.

Lemma merge_items_order_witness :
  let kvs := [("cmd", JStr "sleep 10"); ("instances", JInt 3)] in
  let kvs' := [("instances", JInt 3); ("cmd", JStr "sleep 10")] in
  Forall2 (λ item kv, Fixture.parse_json_item item Fixture.schema = inl kv)
    ["cmd=sleep 10"; "instances=3"] kvs
  ∧ Forall2 (λ item kv, Fixture.parse_json_item item Fixture.schema = inl kv)
      ["instances=3"; "cmd=sleep 10"] kvs'
  ∧ kvs ≡ₚ kvs'
  ∧ NoDup (kvs.*1)
  ∧ (∀ k, k ∈ kvs.*1 → (<["id" := JStr "/app"]> ∅ : gmap string Json) !! k = None)
  ∧ merge_items Fixture.schema Fixture.parse_json_item
      ["cmd=sleep 10"; "instances=3"] (<["id" := JStr "/app"]> ∅) []
    = merge_items Fixture.schema Fixture.parse_json_item
        ["instances=3"; "cmd=sleep 10"] (<["id" := JStr "/app"]> ∅) [].
Proof.
  intros kvs kvs'.
  assert (H1 : Forall2
            (λ item kv, Fixture.parse_json_item item Fixture.schema = inl kv)
            ["cmd=sleep 10"; "instances=3"] kvs) by repeat constructor.
  assert (H2 : Forall2
            (λ item kv, Fixture.parse_json_item item Fixture.schema = inl kv)
            ["instances=3"; "cmd=sleep 10"] kvs') by repeat constructor.
  assert (H3 : kvs ≡ₚ kvs') by apply perm_swap.
  assert (H4 : NoDup (kvs.*1)).
  { apply (bool_decide_unpack _). vm_compute. exact I. }
  assert (H5 : ∀ k, k ∈ kvs.*1 →
                 (<["id" := JStr "/app"]> ∅ : gmap string Json) !! k = None).
  { intros k Hk. apply lookup_insert_None. split; [apply lookup_empty|].
    intros <-. revert Hk. apply (bool_decide_unpack _). vm_compute. exact I. }
  split; [exact H1|]. split; [exact H2|]. split; [exact H3|].
  split; [exact H4|]. split; [exact H5|].
  exact (merge_items_order Fixture.schema Fixture.parse_json_item
           _ _ kvs kvs' _ [] H1 H2 H3 H4 H5).
Defined.

Lemma merge_items_keeps_id_witness :
  merge_items Fixture.schema Fixture.parse_json_item
    ["cmd=sleep 10"; "instances=3"] (<["id" := JStr "/app"]> ∅) []
    = (Returned (inl (<["cmd" := JStr "sleep 10"]>
                        (<["instances" := JInt 3]>
                           (<["id" := JStr "/app"]> ∅)))), [])
  ∧ (<["cmd" := JStr "sleep 10"]>
       (<["instances" := JInt 3]> (<["id" := JStr "/app"]> ∅))
     : gmap string Json) !! "id" = Some (JStr "/app")
  ∧ size (<["cmd" := JStr "sleep 10"]>
            (<["instances" := JInt 3]> (<["id" := JStr "/app"]> ∅))
          : gmap string Json) = 3%nat.
Proof.
  assert (H1 : merge_items Fixture.schema Fixture.parse_json_item
                 ["cmd=sleep 10"; "instances=3"] (<["id" := JStr "/app"]> ∅) []
               = (Returned (inl (<["cmd" := JStr "sleep 10"]>
                                   (<["instances" := JInt 3]>
                                      (<["id" := JStr "/app"]> ∅)))), []))
    by (vm_compute; reflexivity).
  split; [exact H1|].
  exact (merge_items_keeps_id Fixture.schema Fixture.parse_json_item
           "/app" _ _ [] [] H1).
Defined.

Section UpdateFacts.

Context {Schema : Type}.
Variable client : Client.
Variable schema : Schema.
Variable stdin_isatty : bool.
Variable stdin_read : string.
Variable load_jsons : string → Json + Error.
Variable validate_json : Json → Schema → option Error.
Variable parse_json_item : string → Schema → (string * Json) + Error.

#[local] Abbreviation merge := (merge_items schema parse_json_item).
#[local] Abbreviation update :=
  (_update client schema stdin_isatty stdin_read load_jsons validate_json
           parse_json_item).

(** [_update] on an application that exists, with at least one item. *)
Lemma update_with_items app_id app item items force tr :
  get_app client app_id None = inl app →
  update app_id (item :: items) force tr =
    match merge (item :: items) (<["id" := JStr app_id]> ∅)
            (tr ++ [CallGetApp app_id None]) with
    | (Returned (inr st), tr') => (Returned st, tr')
    | (Returned (inl app_json), tr') =>
        match validate_json (JObject app_json) schema with
        | Some err => (Returned (Some 1), tr' ++ [Publish (EmitError err)])
        | None =>
            match update_app client app_id (JObject app_json) force with
            | inl deployment =>
                (Returned (Some 0),
                 tr' ++ [CallUpdateApp app_id (JObject app_json) force;
                         Publish (EmitText ("Created deployment " +:+ deployment))])
            | inr err =>
                (Returned (Some 1),
                 tr' ++ [CallUpdateApp app_id (JObject app_json) force;
                         Publish (EmitError err)])
            end
        end
    | (Raised e, tr') => (Raised e, tr')
    end.
Proof.
  intros Happ. unfold _update.
  unfold call, emit, publish, mbind, M_bind, mret, M_ret.
  rewrite Happ. cbn [pair_of].
  destruct (bool_decide_reflect (len (item :: items) = 0)) as [Hlen|_];
    [done|].
  destruct (merge (item :: items) (<["id" := JStr app_id]> ∅)
              (tr ++ [CallGetApp app_id None])) as [[[app_json|st]|e] tr'];
    [|done..].
  destruct (validate_json (JObject app_json) schema) as [err|]; [done|].
  destruct (update_app client app_id (JObject app_json) force);
    simpl; by rewrite <- !app_assoc.
Qed.

(** X14: the first item that does not parse ends [_update]: its error is
    published, the status is 1, the items after it are not looked at and
    neither validation nor an update request happens. *)
Theorem update_first_parse_error app_id app pre item rest err d force tr :
  (merge pre (<["id" := JStr app_id]> ∅) []).1 = Returned (inl d) →
  parse_json_item item schema = inr err →
  get_app client app_id None = inl app →
  update app_id (pre ++ item :: rest) force tr
    = (Returned (Some 1), tr ++ [CallGetApp app_id None; Publish (EmitError err)]).
Proof.
  intros Hpre Hitem Happ.
  assert (merge (pre ++ item :: rest) (<["id" := JStr app_id]> ∅)
            (tr ++ [CallGetApp app_id None])
          = (Returned (inr (Some 1)),
             (tr ++ [CallGetApp app_id None]) ++ [Publish (EmitError err)]))
    as Hloop.
  { rewrite (merge_items_app schema parse_json_item pre (item :: rest) _ d
               (tr ++ [CallGetApp app_id None]) (tr ++ [CallGetApp app_id None])).
    - by rewrite merge_items_cons, Hitem.
    - rewrite merge_items_frame, Hpre.
      destruct (merge pre (<["id" := JStr app_id]> ∅) []) as [r evs] eqn:Hrun.
      simpl in Hpre. subst r.
      destruct (merge_items_success _ _ _ _ _ _ _ Hrun) as [-> _].
      simpl. by rewrite app_nil_r. }
  assert (∃ first others, pre ++ item :: rest = first :: others)
    as (first & others & Hlist) by (destruct pre; by eexists _, _).
  rewrite Hlist in *.
  rewrite (update_with_items _ app _ _ _ _ Happ), Hloop.
  by rewrite <- !app_assoc.
Qed.

(** X15: with at least one item, all of which parse to pairwise distinct
    keys other than [id], [_update] validates the descriptor made of [id]
    and the parsed pairs and, if it is valid, submits that very descriptor
    with the caller's force flag: status 0 and "Created deployment ..."
    when the update is accepted, status 1 and the error when validation or
    the update fails. *)
Theorem update_submits_descriptor app_id app items kvs force tr :
  items ≠ [] →
  Forall2 (λ item kv, parse_json_item item schema = inl kv) items kvs →
  NoDup (kvs.*1) →
  "id" ∉ kvs.*1 →
  get_app client app_id None = inl app →
  let app_json : gmap string Json :=
    list_to_map kvs ∪ <["id" := JStr app_id]> ∅ in
  update app_id items force tr =
    match validate_json (JObject app_json) schema with
    | Some err =>
        (Returned (Some 1),
         tr ++ [CallGetApp app_id None; Publish (EmitError err)])
    | None =>
        match update_app client app_id (JObject app_json) force with
        | inl deployment =>
            (Returned (Some 0),
             tr ++ [CallGetApp app_id None;
                    CallUpdateApp app_id (JObject app_json) force;
                    Publish (EmitText ("Created deployment " +:+ deployment))])
        | inr err =>
            (Returned (Some 1),
             tr ++ [CallGetApp app_id None;
                    CallUpdateApp app_id (JObject app_json) force;
                    Publish (EmitError err)])
        end
    end.
Proof.
  intros Hitems Hparse Hnodup Hid Happ app_json.
  destruct items as [|item items]; [done|].
  rewrite (update_with_items _ app _ _ _ _ Happ).
  rewrite (merge_items_fresh _ _ _ kvs _ _ Hparse Hnodup).
  - fold app_json.
    destruct (validate_json (JObject app_json) schema) as [err|];
      [by rewrite <- !app_assoc|].
    destruct (update_app client app_id (JObject app_json) force);
      by rewrite <- !app_assoc.
  - intros k Hk. rewrite lookup_insert_ne; [done|]. by intros <-.
Qed.

(** X16: with no items [_update] does not build a descriptor.  On a
    terminal it publishes the "reading from the TTY" message and returns
    1; otherwise the document read from stdin is submitted as it was
    decoded, without an [id] being added and without validation against
    the schema, and an undecodable document is reported with status 1
    before any update request. *)
Theorem update_without_items app_id app force tr :
  get_app client app_id None = inl app →
  update app_id [] force tr =
    if stdin_isatty then
      (Returned (Some 1),
       tr ++ [CallGetApp app_id None;
              Publish (EmitText (tty_message "update < app_update.json"))])
    else
      let logged :=
        LogInfo ("Updating " +:+ repr_str app_id +:+ " from JSON object from stdin") in
      match load_jsons stdin_read with
      | inr err =>
          (Returned (Some 1),
           tr ++ [CallGetApp app_id None; logged; Publish (EmitError err)])
      | inl resource =>
          match update_app client app_id resource force with
          | inl _ =>
              (Returned (Some 0),
               tr ++ [CallGetApp app_id None; logged;
                      CallUpdateApp app_id resource force])
          | inr err =>
              (Returned (Some 1),
               tr ++ [CallGetApp app_id None; logged;
                      CallUpdateApp app_id resource force;
                      Publish (EmitError err)])
          end
      end.
Proof.
  intros Happ. unfold _update, _update_from_stdin. run_command.
  rewrite Happ. simpl.
  destruct stdin_isatty; [by rewrite <- !app_assoc|].
  destruct (load_jsons stdin_read) as [resource|err]; simpl;
    [|by rewrite <- !app_assoc].
  destruct (update_app client app_id resource force); simpl;
    by rewrite <- !app_assoc.
Qed.

End UpdateFacts.

Lemma update_first_parse_error_witness :
  let client := Fixture.client_of Fixture.running_app in
  let d : gmap string Json :=
    <["cmd" := JStr "ls"]> (<["id" := JStr "/app"]> ∅) in
  (merge_items Fixture.schema Fixture.parse_json_item ["cmd=ls"]
     (<["id" := JStr "/app"]> ∅) []).1 = Returned (inl d)
  ∧ Fixture.parse_json_item "cpus=2.0" Fixture.schema
      = inr (DefaultError "TypeMismatch")
  ∧ get_app client "/app" None = inl Fixture.running_app
  ∧ _update client Fixture.schema false "" (λ _, inl JNull)
      JsonItem.validate_json Fixture.parse_json_item
      "/app" ["cmd=ls"; "cpus=2.0"; "cmd=again"] false []
    = (Returned (Some 1),
       [CallGetApp "/app" None;
        Publish (EmitError (DefaultError "TypeMismatch"))]).
Proof.
  intros client d.
  assert (H1 : (merge_items Fixture.schema Fixture.parse_json_item ["cmd=ls"]
                  (<["id" := JStr "/app"]> ∅) []).1 = Returned (inl d))
    by (vm_compute; reflexivity).
  assert (H2 : Fixture.parse_json_item "cpus=2.0" Fixture.schema
               = inr (DefaultError "TypeMismatch")) by reflexivity.
  assert (H3 : get_app client "/app" None = inl Fixture.running_app)
    by reflexivity.
  split; [exact H1|]. split; [exact H2|]. split; [exact H3|].
  exact (update_first_parse_error client Fixture.schema false ""
           (λ _, inl JNull) JsonItem.validate_json Fixture.parse_json_item
           "/app" Fixture.running_app ["cmd=ls"] "cpus=2.0" ["cmd=again"]
           _ d false [] H1 H2 H3).
Defined.

Lemma update_submits_descriptor_witness :
  let client := Fixture.client_of Fixture.running_app in
  let kvs := [("cmd", JStr "sleep 10"); ("instances", JInt 3)] in
  ["cmd=sleep 10"; "instances=3"] ≠ []
  ∧ Forall2 (λ item kv, Fixture.parse_json_item item Fixture.schema = inl kv)
      ["cmd=sleep 10"; "instances=3"] kvs
  ∧ NoDup (kvs.*1)
  ∧ ("id" ∉ kvs.*1)
  ∧ get_app client "/app" None = inl Fixture.running_app
  ∧ _update client Fixture.schema false "" (λ _, inl JNull)
      JsonItem.validate_json Fixture.parse_json_item
      "/app" ["cmd=sleep 10"; "instances=3"] true []
    = (Returned (Some 0),
       [CallGetApp "/app" None;
        CallUpdateApp "/app"
          (JObject (list_to_map kvs ∪ <["id" := JStr "/app"]> ∅)) true;
        Publish (EmitText "Created deployment deployment-1")]).
Proof.
  intros client kvs.
  assert (H0 : ["cmd=sleep 10"; "instances=3"] ≠ ([] : list string))
    by discriminate.
  assert (H1 : Forall2
            (λ item kv, Fixture.parse_json_item item Fixture.schema = inl kv)
            ["cmd=sleep 10"; "instances=3"] kvs) by repeat constructor.
  assert (H2 : NoDup (kvs.*1)).
  { apply (bool_decide_unpack _). vm_compute. exact I. }
  assert (H3 : "id" ∉ kvs.*1).
  { apply (bool_decide_unpack _). vm_compute. exact I. }
  assert (H4 : get_app client "/app" None = inl Fixture.running_app)
    by reflexivity.
  split; [exact H0|]. split; [exact H1|]. split; [exact H2|].
  split; [exact H3|]. split; [exact H4|].
  exact (update_submits_descriptor client Fixture.schema false ""
           (λ _, inl JNull) JsonItem.validate_json Fixture.parse_json_item
           "/app" Fixture.running_app _ kvs true [] H0 H1 H2 H3 H4).
Defined.

Lemma update_without_items_witness :
  let client := Fixture.client_of Fixture.running_app in
  let resource := JObject {["cmd" := JStr "ls"]} in
  get_app client "/app" None = inl Fixture.running_app
  ∧ _update client Scenario.strict_schema false "{}" (λ _, inl resource)
      JsonItem.validate_json Fixture.parse_json_item "/app" [] false []
    = (Returned (Some 0),
       [CallGetApp "/app" None;
        LogInfo "Updating '/app' from JSON object from stdin";
        CallUpdateApp "/app" resource false]).
Proof.
  intros client resource.
  assert (H1 : get_app client "/app" None = inl Fixture.running_app)
    by reflexivity.
  split; [exact H1|].
  exact (update_without_items client Scenario.strict_schema false "{}"
           (λ _, inl resource) JsonItem.validate_json Fixture.parse_json_item
           "/app" Fixture.running_app false [] H1).
Defined.

(** ** [_list] *)

(** Publishing the ids of applications that all have one. *)
Lemma publish_ids_all apps ids tr :
  Forall2 (λ (app : gmap string Json) id, app !! "id" = Some id) apps ids →
  publish_ids apps tr = (Returned (), tr ++ (Publish ∘ EmitJson <$> ids)).
Proof.
  intros Hids. revert tr. induction Hids as [|app id apps ids Hid _ IH]; intros tr.
  - simpl. unfold mret, M_ret. by rewrite app_nil_r.
  - simpl. unfold getitem. run_command. rewrite Hid. simpl.
    rewrite IH. by rewrite <- app_assoc.
Qed.

(** Publishing stops, with [KeyError], at the first application without
    an id. *)
Lemma publish_ids_missing pre ids app rest tr :
  Forall2 (λ (app : gmap string Json) id, app !! "id" = Some id) pre ids →
  app !! "id" = None →
  publish_ids (pre ++ app :: rest) tr
    = (Raised KeyError, tr ++ (Publish ∘ EmitJson <$> ids)).
Proof.
  intros Hids Hmissing. revert tr.
  induction Hids as [|app' id pre ids Hid _ IH]; intros tr.
  - simpl. unfold getitem. run_command. rewrite Hmissing. by rewrite app_nil_r.
  - simpl. unfold getitem. run_command. rewrite Hid. simpl.
    rewrite IH. by rewrite <- app_assoc.
Qed.

(** X17: [_list] publishes the [id] of every application, in the order the
    client gave them, and returns 0; for an empty list it publishes "No
    applications to list." and also returns 0.  It makes one call,
    [get_apps]. *)
Theorem list_publishes_ids client apps ids tr :
  get_apps client = inl apps →
  Forall2 (λ (app : gmap string Json) id, app !! "id" = Some id) apps ids →
  _list client tr
    = (Returned (Some 0),
       tr ++ [CallGetApps]
          ++ (if bool_decide (apps = [])
              then [Publish (EmitText "No applications to list.")] else [])
          ++ (Publish ∘ EmitJson <$> ids)).
Proof.
  intros Happs Hids. unfold _list. run_command. rewrite Happs. simpl.
  destruct (bool_decide (apps = [])); simpl;
    rewrite (publish_ids_all _ _ _ Hids); by rewrite <- !app_assoc.
Qed.

(** X18: an application without the key [id] makes [_list] end in
    [KeyError]: the ids before it have been published, the applications
    after it are not, and no status is returned. *)
Theorem list_missing_id client pre ids app rest tr :
  get_apps client = inl (pre ++ app :: rest) →
  Forall2 (λ (app : gmap string Json) id, app !! "id" = Some id) pre ids →
  app !! "id" = None →
  _list client tr
    = (Raised KeyError, tr ++ [CallGetApps] ++ (Publish ∘ EmitJson <$> ids)).
Proof.
  intros Happs Hids Hmissing. unfold _list. run_command. rewrite Happs. simpl.
  destruct (bool_decide_reflect (pre ++ app :: rest = [])) as [Hnil|_].
  { by destruct pre. }
  simpl. rewrite (publish_ids_missing _ _ _ _ _ Hids Hmissing).
  by rewrite <- !app_assoc.
Qed.

Lemma list_publishes_ids_witness :
  let apps := [Fixture.running_app; <["id" := JStr "/other"]> ∅] in
  get_apps (Scenario.cluster_of apps) = inl apps
  ∧ Forall2 (λ (app : gmap string Json) id, app !! "id" = Some id)
      apps [JStr "/app"; JStr "/other"]
  ∧ _list (Scenario.cluster_of apps) []
    = (Returned (Some 0),
       [CallGetApps; Publish (EmitJson (JStr "/app"));
        Publish (EmitJson (JStr "/other"))]).
Proof.
  intros apps.
  assert (H1 : get_apps (Scenario.cluster_of apps) = inl apps) by reflexivity.
  assert (H2 : Forall2 (λ (app : gmap string Json) id, app !! "id" = Some id)
                 apps [JStr "/app"; JStr "/other"]) by repeat constructor.
  split; [exact H1|]. split; [exact H2|].
  exact (list_publishes_ids (Scenario.cluster_of apps) apps _ [] H1 H2).
Defined.

Lemma list_missing_id_witness :
  let nameless : gmap string Json := <["instances" := JInt 1]> ∅ in
  let apps := [Fixture.running_app] ++ nameless :: [Fixture.stopped_app] in
  get_apps (Scenario.cluster_of apps) = inl apps
  ∧ Forall2 (λ (app : gmap string Json) id, app !! "id" = Some id)
      [Fixture.running_app] [JStr "/app"]
  ∧ nameless !! "id" = None
  ∧ _list (Scenario.cluster_of apps) []
    = (Raised KeyError, [CallGetApps; Publish (EmitJson (JStr "/app"))]).
Proof.
  intros nameless apps.
  assert (H1 : get_apps (Scenario.cluster_of apps) = inl apps) by reflexivity.
  assert (H2 : Forall2 (λ (app : gmap string Json) id, app !! "id" = Some id)
                 [Fixture.running_app] [JStr "/app"]) by repeat constructor.
  assert (H3 : nameless !! "id" = None) by reflexivity.
  split; [exact H1|]. split; [exact H2|]. split; [exact H3|].
  exact (list_missing_id (Scenario.cluster_of apps) [Fixture.running_app] _
           nameless [Fixture.stopped_app] [] H1 H2 H3).
Defined.

(** ** The status of every command *)

Section StatusFacts.

Context {Schema : Type}.
Variable client : Client.
Variable schema : Schema.
Variable stdin_isatty : bool.
Variable stdin_read : string.
Variable configure_logger_from_environ : option Error.
Variable load_jsons : string → Json + Error.
Variable validate_json : Json → Schema → option Error.
Variable parse_json_item : string → Schema → (string * Json) + Error.
Variable repr_other : Json → string.
Variable usage_error : emitted.

#[local] Abbreviation add := (_add client stdin_isatty stdin_read load_jsons).
#[local] Abbreviation start := (_start client schema validate_json repr_other).
#[local] Abbreviation stop := (_stop client repr_other).
#[local] Abbreviation update_from_stdin :=
  (_update_from_stdin client stdin_read load_jsons).
#[local] Abbreviation update :=
  (_update client schema stdin_isatty stdin_read load_jsons validate_json
           parse_json_item).
#[local] Abbreviation main_of :=
  (main client schema stdin_isatty stdin_read configure_logger_from_environ
        load_jsons validate_json parse_json_item repr_other usage_error).

Ltac status_cases :=
  repeat match goal with
         | |- context [match ?x with _ => _ end] => destruct x; simpl
         end;
  try done; try (by left); try (by right).

Lemma add_status tr : exits_zero_or_one (add tr).1.
Proof. unfold _add. run_command. status_cases. Qed.

Lemma remove_status app_id force tr :
  exits_zero_or_one (_remove client app_id force tr).1.
Proof. unfold _remove. run_command. status_cases. Qed.

Lemma update_from_stdin_status app_id force tr :
  exits_zero_or_one (update_from_stdin app_id force tr).1.
Proof. unfold _update_from_stdin. run_command. status_cases. Qed.

Lemma list_status tr : exits_zero_or_one (_list client tr).1.
Proof.
  unfold _list. run_command.
  destruct (get_apps client) as [apps|err]; simpl; [|by right].
  destruct (bool_decide (apps = [])); simpl;
    destruct (publish_ids apps _) as [[u|e] tr']; simpl; try done; by left.
Qed.

Lemma show_status app_id version tr :
  exits_zero_or_one (_show client app_id version tr).1.
Proof.
  unfold _show. destruct version as [version|].
  - destruct (calculate_version_returns client app_id version tr)
      as (r & tr' & Hrun & [[v ->]|[e ->]]);
      run_command; rewrite Hrun; simpl; status_cases.
  - run_command. status_cases.
Qed.

Lemma start_status app_id instances force tr :
  exits_zero_or_one (start app_id instances force tr).1.
Proof.
  unfold _start. run_command.
  destruct (get_app client app_id None) as [desc|err]; simpl; [|by right].
  destruct (getitem desc "instances") as [running|]; simpl; [|done].
  destruct (json_gt_zero running) as [[]|]; simpl; [by right| |done].
  destruct instances as [s|]; simpl.
  - destruct (parse_int_cases s (tr ++ [CallGetApp app_id None]))
      as [(z & _ & ->)|(e & _ & ->)]; simpl; [|by right].
    destruct (z <=? 0); simpl; [by right|]. status_cases.
  - status_cases.
Qed.

Lemma stop_status app_id force tr : one_or_none (stop app_id force tr).1.
Proof. unfold _stop. run_command. status_cases. Qed.

Lemma update_status app_id json_items force tr :
  exits_zero_or_one (update app_id json_items force tr).1.
Proof.
  destruct (get_app client app_id None) as [app|err] eqn:Happ.
  - destruct json_items as [|item items].
    + unfold _update. run_command. rewrite Happ. simpl.
      destruct stdin_isatty; simpl; [by right|].
      apply update_from_stdin_status.
    + rewrite (update_with_items _ _ _ _ _ _ _ _ app _ _ _ _ Happ).
      destruct (merge_items_returns schema parse_json_item (item :: items)
                  (<["id" := JStr app_id]> ∅) (tr ++ [CallGetApp app_id None]))
        as [[d ->]|[x ->]]; [|by right].
      status_cases.
  - unfold _update. run_command. rewrite Happ. by right.
Qed.

(** X19: whenever they return, [_info], [_add], [_list], [_remove],
    [_show], [_start], [_update] and [_update_from_stdin] return 0 or 1,
    for every client and every input; [_stop] returns 1 or nothing; [main]
    returns 0 or 1, or nothing, and nothing only when the [stop] command
    was selected. *)
Theorem command_status app_id version instances json_items force args tr :
  exits_zero_or_one (_info tr).1
  ∧ exits_zero_or_one (add tr).1
  ∧ exits_zero_or_one (_list client tr).1
  ∧ exits_zero_or_one (_remove client app_id force tr).1
  ∧ exits_zero_or_one (_show client app_id version tr).1
  ∧ exits_zero_or_one (start app_id instances force tr).1
  ∧ exits_zero_or_one (update app_id json_items force tr).1
  ∧ exits_zero_or_one (update_from_stdin app_id force tr).1
  ∧ one_or_none (stop app_id force tr).1
  ∧ match (main_of args tr).1 with
    | Returned st => zero_or_one st ∨ (st = None ∧ arg_stop args = true)
    | Raised _ => True
    end.
Proof.
  repeat split.
  - by left.
  - apply add_status.
  - apply list_status.
  - apply remove_status.
  - apply show_status.
  - apply start_status.
  - apply update_status.
  - apply update_from_stdin_status.
  - apply stop_status.
  - unfold main.
    destruct configure_logger_from_environ; [left; by right|].
    destruct (arg_app args); simpl; [|left; by right].
    destruct (arg_info args); [left; by left|].
    destruct (arg_add args).
    { pose proof (add_status tr) as H. destruct (add tr) as [[st|] ?]; [by left|done]. }
    destruct (arg_list args).
    { pose proof (list_status tr) as H.
      destruct (_list client tr) as [[st|] ?]; [by left|done]. }
    destruct (arg_remove args).
    { pose proof (remove_status (arg_app_id args) (arg_force args) tr) as H.
      destruct (_remove client _ _ tr) as [[st|] ?]; [by left|done]. }
    destruct (arg_show args).
    { pose proof (show_status (arg_app_id args) (arg_app_version args) tr) as H.
      destruct (_show client _ _ tr) as [[st|] ?]; [by left|done]. }
    destruct (arg_start args).
    { pose proof (start_status (arg_app_id args) (arg_instances args)
                    (arg_force args) tr) as H.
      destruct (start _ _ _ tr) as [[st|] ?]; [by left|done]. }
    destruct (arg_stop args).
    { pose proof (stop_status (arg_app_id args) (arg_force args) tr) as H.
      destruct (stop _ _ tr) as [[st|] ?]; [|done].
      destruct H as [-> | ->]; [left; by right|by right]. }
    destruct (arg_update args).
    { pose proof (update_status (arg_app_id args) (arg_properties args)
                    (arg_force args) tr) as H.
      destruct (update _ _ _ tr) as [[st|] ?]; [by left|done]. }
    left. by right.
Qed.

End StatusFacts.

(** ** Status and published errors *)

Section ReportFacts.

Context {Schema : Type}.
Variable client : Client.
Variable schema : Schema.
Variable stdin_isatty : bool.
Variable stdin_read : string.
Variable configure_logger_from_environ : option Error.
Variable load_jsons : string → Json + Error.
Variable validate_json : Json → Schema → option Error.
Variable parse_json_item : string → Schema → (string * Json) + Error.
Variable repr_other : Json → string.
Variable usage_error : emitted.

#[local] Abbreviation add := (_add client stdin_isatty stdin_read load_jsons).
#[local] Abbreviation start := (_start client schema validate_json repr_other).
#[local] Abbreviation stop := (_stop client repr_other).
#[local] Abbreviation update_from_stdin :=
  (_update_from_stdin client stdin_read load_jsons).
#[local] Abbreviation update :=
  (_update client schema stdin_isatty stdin_read load_jsons validate_json
           parse_json_item).
#[local] Abbreviation main_of :=
  (main client schema stdin_isatty stdin_read configure_logger_from_environ
        load_jsons validate_json parse_json_item repr_other usage_error).

Ltac close_account :=
  simpl; rewrite <- ?app_assoc; simpl;
  eexists; (split; [reflexivity|]); simpl;
  first [ done
        | by repeat constructor
        | by eexists [], _
        | by eexists [_], _
        | by eexists [_; _], _
        | by eexists [_; _; _], _ ].

Ltac account_cases :=
  repeat match goal with
         | |- context [match ?x with _ => _ end] => destruct x; simpl
         end;
  close_account.

Lemma info_accounted : accounted _info.
Proof. intros tr. unfold _info. run_command. close_account. Qed.

Lemma add_accounted : accounted add.
Proof. intros tr. unfold _add. run_command. account_cases. Qed.

Lemma remove_accounted app_id force : accounted (_remove client app_id force).
Proof. intros tr. unfold _remove. run_command. account_cases. Qed.

Lemma update_from_stdin_accounted app_id force :
  accounted (update_from_stdin app_id force).
Proof. intros tr. unfold _update_from_stdin. run_command. account_cases. Qed.

Lemma stop_accounted app_id force : accounted (stop app_id force).
Proof. intros tr. unfold _stop. run_command. account_cases. Qed.

Lemma reported_after ev r evs :
  is_error_report ev = false → reported r evs → reported r (ev :: evs).
Proof.
  intros Hev. destruct r as [[[|[| |]|]|]|]; simpl; try done.
  - intros H. by constructor.
  - intros (evs' & x & ->). by exists (ev :: evs'), x.
Qed.

Lemma publish_ids_events apps tr :
  ∃ evs, (publish_ids apps tr).2 = tr ++ evs
         ∧ Forall (λ ev, is_error_report ev = false) evs.
Proof.
  revert tr. induction apps as [|app apps IH]; intros tr.
  - exists []. simpl. by rewrite app_nil_r.
  - simpl. unfold getitem. run_command. destruct (app !! "id") as [id|]; simpl.
    + destruct (IH (tr ++ [Publish (EmitJson id)])) as (evs & Htrace & Hevs).
      exists (Publish (EmitJson id) :: evs). rewrite Htrace, <- app_assoc.
      split; [done|]. by constructor.
    + exists []. by rewrite app_nil_r.
Qed.

Lemma list_accounted : accounted (_list client).
Proof.
  intros tr. unfold _list. run_command.
  destruct (get_apps client) as [apps|err]; simpl; [|close_account].
  destruct (bool_decide (apps = [])); simpl.
  - destruct (publish_ids_events apps
                ((tr ++ [CallGetApps])
                 ++ [Publish (EmitText "No applications to list.")]))
      as (evs & Htrace & Hevs).
    destruct (publish_ids apps _) as [[u|e] tr']; simpl in *; subst tr';
      rewrite <- !app_assoc; eexists; (split; [reflexivity|]); simpl; [|done].
    by repeat constructor.
  - destruct (publish_ids_events apps (tr ++ [CallGetApps]))
      as (evs & Htrace & Hevs).
    destruct (publish_ids apps _) as [[u|e] tr']; simpl in *; subst tr';
      rewrite <- !app_assoc; eexists; (split; [reflexivity|]); simpl; [|done].
    by repeat constructor.
Qed.

Lemma show_accounted app_id version : accounted (_show client app_id version).
Proof.
  intros tr. unfold _show. destruct version as [version|].
  - destruct (calculate_version_returns client app_id version tr)
      as (r & tr' & Hrun & Hr).
    destruct (calculate_version_events client app_id version tr)
      as (evs & Htrace & Hevs).
    rewrite Hrun in Htrace. simpl in Htrace. subst tr'.
    assert (Forall (λ ev, is_error_report ev = false) evs) as Hquiet.
    { destruct Hevs as [->|[(msg & ->)|(count & _ & ->)]]; by repeat constructor. }
    run_command. rewrite Hrun. destruct Hr as [[v ->]|[e ->]]; simpl.
    + destruct (get_app client app_id (Some v)) as [app|err]; simpl;
        rewrite <- !app_assoc; eexists; (split; [reflexivity|]); simpl.
      * apply Forall_app. split; [done|]. by repeat constructor.
      * exists (evs ++ [CallGetApp app_id (Some v)]), (EmitError err).
        by rewrite <- app_assoc.
    + rewrite <- !app_assoc. eexists. split; [reflexivity|]. simpl.
      by eexists evs, _.
  - run_command. account_cases.
Qed.

Lemma start_accounted app_id instances force :
  accounted (start app_id instances force).
Proof.
  intros tr. unfold _start. run_command.
  destruct (get_app client app_id None) as [desc|err]; simpl; [|close_account].
  destruct (getitem desc "instances") as [running|]; simpl; [|close_account].
  destruct (json_gt_zero running) as [[]|]; simpl; [close_account| |close_account].
  destruct instances as [s|]; simpl.
  - destruct (parse_int_cases s (tr ++ [CallGetApp app_id None]))
      as [(z & _ & ->)|(e & _ & ->)]; simpl; [|close_account].
    destruct (z <=? 0); simpl; [close_account|]. account_cases.
  - account_cases.
Qed.

Lemma update_accounted app_id json_items force :
  accounted (update app_id json_items force).
Proof.
  intros tr. destruct (get_app client app_id None) as [app|err] eqn:Happ.
  - destruct json_items as [|item items].
    + unfold _update. run_command. rewrite Happ. simpl.
      destruct stdin_isatty; simpl; [close_account|].
      destruct (update_from_stdin_accounted app_id force
                  (tr ++ [CallGetApp app_id None])) as (evs & Htrace & Hevs).
      exists (CallGetApp app_id None :: evs). rewrite Htrace, <- app_assoc.
      split; [done|]. by apply reported_after.
    + rewrite (update_with_items _ _ _ _ _ _ _ _ app _ _ _ _ Happ).
      destruct (merge_items_returns schema parse_json_item (item :: items)
                  (<["id" := JStr app_id]> ∅) (tr ++ [CallGetApp app_id None]))
        as [[d ->]|[x ->]]; [account_cases|close_account].
  - unfold _update. run_command. rewrite Happ. close_account.
Qed.

(** X20: every command only appends to the trace, and its status goes
    with what it published: a command that returns 1 has published
    something as its last step, and a command that returns 0 has not
    published any error. *)
Theorem commands_accounted app_id version instances json_items force args :
  accounted _info
  ∧ accounted add
  ∧ accounted (_list client)
  ∧ accounted (_remove client app_id force)
  ∧ accounted (_show client app_id version)
  ∧ accounted (start app_id instances force)
  ∧ accounted (stop app_id force)
  ∧ accounted (update app_id json_items force)
  ∧ accounted (update_from_stdin app_id force)
  ∧ accounted (main_of args).
Proof.
  repeat split.
  - apply info_accounted.
  - apply add_accounted.
  - apply list_accounted.
  - apply remove_accounted.
  - apply show_accounted.
  - apply start_accounted.
  - apply stop_accounted.
  - apply update_accounted.
  - apply update_from_stdin_accounted.
  - intros tr. unfold main.
    destruct configure_logger_from_environ; [run_command; close_account|].
    destruct (arg_app args); simpl; [|run_command; close_account].
    destruct (arg_info args); [apply info_accounted|].
    destruct (arg_add args); [apply add_accounted|].
    destruct (arg_list args); [apply list_accounted|].
    destruct (arg_remove args); [apply remove_accounted|].
    destruct (arg_show args); [apply show_accounted|].
    destruct (arg_start args); [apply start_accounted|].
    destruct (arg_stop args); [apply stop_accounted|].
    destruct (arg_update args); [apply update_accounted|].
    run_command. close_account.
Qed.

End ReportFacts.

(** ** What the commands request from the cluster *)

Section RequestFacts.

Context {Schema : Type}.
Variable client : Client.
Variable schema : Schema.
Variable stdin_isatty : bool.
Variable stdin_read : string.
Variable configure_logger_from_environ : option Error.
Variable load_jsons : string → Json + Error.
Variable validate_json : Json → Schema → option Error.
Variable parse_json_item : string → Schema → (string * Json) + Error.
Variable repr_other : Json → string.
Variable usage_error : emitted.

#[local] Abbreviation add := (_add client stdin_isatty stdin_read load_jsons).
#[local] Abbreviation start := (_start client schema validate_json repr_other).
#[local] Abbreviation stop := (_stop client repr_other).
#[local] Abbreviation update_from_stdin :=
  (_update_from_stdin client stdin_read load_jsons).
#[local] Abbreviation update :=
  (_update client schema stdin_isatty stdin_read load_jsons validate_json
           parse_json_item).
#[local] Abbreviation main_of :=
  (main client schema stdin_isatty stdin_read configure_logger_from_environ
        load_jsons validate_json parse_json_item repr_other usage_error).



End RequestFacts.


(** ** How many changes a command requests *)

Lemma mutations_app evs evs' :
  mutations (evs ++ evs') = (mutations evs + mutations evs')%nat.
Proof. unfold mutations. by rewrite List.filter_app, length_app. Qed.

Lemma publish_ids_quiet apps tr :
  ∃ evs, (publish_ids apps tr).2 = tr ++ evs ∧ mutations evs = 0%nat.
Proof.
  revert tr. induction apps as [|app apps IH]; intros tr.
  - exists []. simpl. by rewrite app_nil_r.
  - simpl. unfold getitem. run_command. destruct (app !! "id") as [id|]; simpl.
    + destruct (IH (tr ++ [Publish (EmitJson id)])) as (evs & Htrace & Hevs).
      exists (Publish (EmitJson id) :: evs). rewrite Htrace, <- app_assoc.
      split; [done|]. exact Hevs.
    + exists []. by rewrite app_nil_r.
Qed.

Section MutationFacts.

Context {Schema : Type}.
Variable client : Client.
Variable schema : Schema.
Variable stdin_isatty : bool.
Variable stdin_read : string.
Variable configure_logger_from_environ : option Error.
Variable load_jsons : string → Json + Error.
Variable validate_json : Json → Schema → option Error.
Variable parse_json_item : string → Schema → (string * Json) + Error.
Variable repr_other : Json → string.
Variable usage_error : emitted.

#[local] Abbreviation add := (_add client stdin_isatty stdin_read load_jsons).
#[local] Abbreviation start := (_start client schema validate_json repr_other).
#[local] Abbreviation stop := (_stop client repr_other).
#[local] Abbreviation update_from_stdin :=
  (_update_from_stdin client stdin_read load_jsons).
#[local] Abbreviation update :=
  (_update client schema stdin_isatty stdin_read load_jsons validate_json
           parse_json_item).
#[local] Abbreviation main_of :=
  (main client schema stdin_isatty stdin_read configure_logger_from_environ
        load_jsons validate_json parse_json_item repr_other usage_error).

Ltac close_count :=
  simpl; rewrite <- ?app_assoc; simpl;
  eexists; (split; [reflexivity|]); unfold mutations; simpl; lia.

Ltac count_cases :=
  repeat match goal with
         | |- context [match ?x with _ => _ end] => destruct x; simpl
         end;
  close_count.

Lemma mutates_more {A} (m : M A) : mutates_at_most 0 m → mutates_at_most 1 m.
Proof.
  intros H tr. destruct (H tr) as (evs & Htrace & Hevs).
  exists evs. split; [done|lia].
Qed.

Lemma info_read_only : mutates_at_most 0 _info.
Proof. intros tr. unfold _info. run_command. close_count. Qed.

Lemma list_read_only : mutates_at_most 0 (_list client).
Proof.
  intros tr. unfold _list. run_command.
  destruct (get_apps client) as [apps|err]; simpl; [|close_count].
  destruct (bool_decide (apps = [])); simpl.
  - destruct (publish_ids_quiet apps
                ((tr ++ [CallGetApps])
                 ++ [Publish (EmitText "No applications to list.")]))
      as (evs & Htrace & Hevs).
    destruct (publish_ids apps _) as [[u|e] tr']; simpl in *; subst tr';
      rewrite <- !app_assoc; eexists; (split; [reflexivity|]);
      rewrite !mutations_app, Hevs; unfold mutations; simpl; lia.
  - destruct (publish_ids_quiet apps (tr ++ [CallGetApps]))
      as (evs & Htrace & Hevs).
    destruct (publish_ids apps _) as [[u|e] tr']; simpl in *; subst tr';
      rewrite <- !app_assoc; eexists; (split; [reflexivity|]);
      rewrite !mutations_app, Hevs; unfold mutations; simpl; lia.
Qed.

Lemma show_read_only app_id version :
  mutates_at_most 0 (_show client app_id version).
Proof.
  intros tr. unfold _show. destruct version as [version|].
  - destruct (calculate_version_returns client app_id version tr)
      as (r & tr' & Hrun & Hr).
    destruct (calculate_version_events client app_id version tr)
      as (evs & Htrace & Hevs).
    rewrite Hrun in Htrace. simpl in Htrace. subst tr'.
    assert (mutations evs = 0%nat) as Hquiet.
    { by destruct Hevs as [->|[(msg & ->)|(count & _ & ->)]]. }
    run_command. rewrite Hrun. destruct Hr as [[v ->]|[e ->]]; simpl.
    + destruct (get_app client app_id (Some v)) as [app|err]; simpl;
        rewrite <- !app_assoc; eexists; (split; [reflexivity|]);
        rewrite !mutations_app, Hquiet; unfold mutations; simpl; lia.
    + rewrite <- !app_assoc. eexists. split; [reflexivity|].
      rewrite !mutations_app, Hquiet. unfold mutations. simpl. lia.
  - run_command. count_cases.
Qed.

(** X24: [_info], [_list] and [_show] are read-only: for every client and
    every input, including a relative or an absolute version, they only
    append to the trace and what they append holds no add, update or
    remove request. *)
Theorem read_only_commands app_id version :
  mutates_at_most 0 _info
  ∧ mutates_at_most 0 (_list client)
  ∧ mutates_at_most 0 (_show client app_id version).
Proof.
  split; [apply info_read_only|].
  split; [apply list_read_only|apply show_read_only].
Qed.

Lemma add_once : mutates_at_most 1 add.
Proof. intros tr. unfold _add. run_command. count_cases. Qed.

Lemma remove_once app_id force : mutates_at_most 1 (_remove client app_id force).
Proof. intros tr. unfold _remove. run_command. count_cases. Qed.

Lemma update_from_stdin_once app_id force :
  mutates_at_most 1 (update_from_stdin app_id force).
Proof. intros tr. unfold _update_from_stdin. run_command. count_cases. Qed.

Lemma stop_once app_id force : mutates_at_most 1 (stop app_id force).
Proof. intros tr. unfold _stop. run_command. count_cases. Qed.

Lemma start_once app_id instances force :
  mutates_at_most 1 (start app_id instances force).
Proof.
  intros tr. unfold _start. run_command.
  destruct (get_app client app_id None) as [desc|err]; simpl; [|close_count].
  destruct (getitem desc "instances") as [running|]; simpl; [|close_count].
  destruct (json_gt_zero running) as [[]|]; simpl; [close_count| |close_count].
  destruct instances as [s|]; simpl.
  - destruct (parse_int_cases s (tr ++ [CallGetApp app_id None]))
      as [(z & _ & ->)|(e & _ & ->)]; simpl; [|close_count].
    destruct (z <=? 0); simpl; [close_count|]. count_cases.
  - count_cases.
Qed.

Lemma update_once app_id json_items force :
  mutates_at_most 1 (update app_id json_items force).
Proof.
  intros tr. destruct (get_app client app_id None) as [app|err] eqn:Happ.
  - destruct json_items as [|item items].
    + unfold _update. run_command. rewrite Happ. simpl.
      destruct stdin_isatty; simpl; [close_count|].
      destruct (update_from_stdin_once app_id force
                  (tr ++ [CallGetApp app_id None])) as (evs & Htrace & Hevs).
      exists (CallGetApp app_id None :: evs). rewrite Htrace, <- app_assoc.
      split; [done|]. exact Hevs.
    + rewrite (update_with_items _ _ _ _ _ _ _ _ app _ _ _ _ Happ).
      destruct (merge_items_returns schema parse_json_item (item :: items)
                  (<["id" := JStr app_id]> ∅) (tr ++ [CallGetApp app_id None]))
        as [[d ->]|[x ->]]; [count_cases|close_count].
  - unfold _update. run_command. rewrite Happ. close_count.
Qed.

(** X25: no command changes the cluster more than once: for every client
    and every input, [_add], [_remove], [_start], [_stop], [_update],
    [_update_from_stdin] and [main] make at most one add, update or remove
    request. *)
Theorem single_mutation app_id instances json_items force args :
  mutates_at_most 1 add
  ∧ mutates_at_most 1 (_remove client app_id force)
  ∧ mutates_at_most 1 (start app_id instances force)
  ∧ mutates_at_most 1 (stop app_id force)
  ∧ mutates_at_most 1 (update app_id json_items force)
  ∧ mutates_at_most 1 (update_from_stdin app_id force)
  ∧ mutates_at_most 1 (main_of args).
Proof.
  repeat split.
  - apply add_once.
  - apply remove_once.
  - apply start_once.
  - apply stop_once.
  - apply update_once.
  - apply update_from_stdin_once.
  - intros tr. unfold main.
    destruct configure_logger_from_environ; [run_command; close_count|].
    destruct (arg_app args); simpl; [|run_command; close_count].
    destruct (arg_info args); [apply mutates_more, info_read_only|].
    destruct (arg_add args); [apply add_once|].
    destruct (arg_list args); [apply mutates_more, list_read_only|].
    destruct (arg_remove args); [apply remove_once|].
    destruct (arg_show args); [apply mutates_more, show_read_only|].
    destruct (arg_start args); [apply start_once|].
    destruct (arg_stop args); [apply stop_once|].
    destruct (arg_update args); [apply update_once|].
    run_command. close_count.
Qed.

End MutationFacts.

(** ** [_start] against [_stop] *)

(** X26: for an application whose [instances] is an integer, [_start] and
    [_stop] never both act: whatever the count and the flags, one of the
    two stops right after the lookup, publishes its "already ..." message
    and returns 1. *)
Theorem start_stop_exclusive {Schema : Type} (client : Client) (schema : Schema)
    (validate_json : Json → Schema → option Error) (repr_other : Json → string)
    app_id instances force force' desc k tr :
  get_app client app_id None = inl desc →
  desc !! "instances" = Some (JInt k) →
  (∃ x, _start client schema validate_json repr_other app_id instances force tr
          = (Returned (Some 1), tr ++ [CallGetApp app_id None; Publish x]))
  ∨ (∃ x, _stop client repr_other app_id force' tr
            = (Returned (Some 1), tr ++ [CallGetApp app_id None; Publish x])).
Proof.
  intros Happ Hk. destruct (Z.ltb_spec 0 k) as [Hpos|Hneg]; [left|right].
  - unfold _start, getitem. run_command. rewrite Happ. simpl. rewrite Hk. simpl.
    destruct (Z.ltb_spec 0 k) as [_|?]; [|lia].
    eexists. by rewrite <- !app_assoc.
  - unfold _stop, getitem. run_command. rewrite Happ. simpl. rewrite Hk. simpl.
    destruct (Z.leb_spec k 0) as [_|?]; [|lia].
    eexists. by rewrite <- !app_assoc.
Qed.

Lemma start_stop_exclusive_witness :
  get_app (Fixture.client_of Fixture.running_app) "/app" None
    = inl Fixture.running_app
  ∧ Fixture.running_app !! "instances" = Some (JInt 2)
  ∧ ((∃ x, _start (Fixture.client_of Fixture.running_app) Fixture.schema
             JsonItem.validate_json (λ _, "") "/app" (Some "4") false []
           = (Returned (Some 1), [] ++ [CallGetApp "/app" None; Publish x]))
     ∨ (∃ x, _stop (Fixture.client_of Fixture.running_app) (λ _, "")
               "/app" true []
             = (Returned (Some 1), [] ++ [CallGetApp "/app" None; Publish x]))).
Proof.
  assert (H1 : get_app (Fixture.client_of Fixture.running_app) "/app" None
               = inl Fixture.running_app) by reflexivity.
  assert (H2 : Fixture.running_app !! "instances" = Some (JInt 2))
    by reflexivity.
  split; [exact H1|]. split; [exact H2|].
  exact (start_stop_exclusive (Fixture.client_of Fixture.running_app)
           Fixture.schema JsonItem.validate_json (λ _, "") "/app" (Some "4")
           false true Fixture.running_app 2 [] H1 H2).
Defined.
